(** * Lazy property resolution on the [Crc] host class (examples/resolve.cpp)

    A shallow embedding of the [Crc] class of [examples/resolve.cpp]: a
    SpiderMonkey host class whose prototype resolves [update] and
    [checksum] lazily and whose instances carry a running CRC-32 in a
    private C++ object.

    The embedding threads one [State] through every operation.  It holds
    the garbage-collected heap of the engine, the pending exception of the
    context, and the C++ free store on which [new Crc()] and [delete priv]
    operate.  The engine entry points the class calls (JSAPI) and zlib's
    [crc32] are not part of the example; the former are modelled from
    their documented contracts in [Module JSAPI], the latter is a section
    variable instantiated with a reference CRC-32 in [Module Zlib]. *)

From Stdlib Require Import ZArith List Lia.
From Stdlib.Strings Require Import Byte.
From stdpp Require Import gmap strings list fin_maps.

Local Open Scope Z_scope.

(** ** Values, property keys and objects *)

(** Addresses of garbage-collected objects ([JSObject*]) and of C++ objects
    on the free store ([Crc*]). *)
Abbreviation loc := positive (only parsing).
Abbreviation ptr := positive (only parsing).

(** The natives this file registers with the engine. *)
Inductive JSNative :=
  | Native_constructor
  | Native_update
  | Native_getChecksum.

(** [JS::Value]. *)
Inductive Value :=
  | UndefinedValue
  | NullValue
  | BooleanValue (b : bool)
  | NumberValue (n : Z)
  | StringValue (s : string)
  | ObjectValue (o : loc).

(** [jsid]: a property key. *)
Inductive jsid :=
  | JSID_STRING (s : string)
  | JSID_INT (i : Z)
  | JSID_SYMBOL (description : string)
  | JSID_VOID.

#[global] Instance Value_eq_dec : EqDecision Value.
Proof. solve_decision. Defined.
#[global] Instance jsid_eq_dec : EqDecision jsid.
Proof. solve_decision. Defined.

(** Property attribute bits. *)
Definition JSPROP_ENUMERATE : Z := 0x01.

Inductive Property :=
  | DataProperty (v : Value) (attrs : Z)
  | AccessorProperty (getter setter : option loc) (attrs : Z).

(** What an object is.  [CrcObject] is an object of class [Crc::klass]; the
    class has [JSCLASS_HAS_PRIVATE], so the object carries a private
    pointer, [None] standing for [nullptr]. *)
Inductive ObjectKind :=
  | CrcObject (priv : option ptr)
  | Uint8ArrayObject (data : list byte)
  | FunctionObject (call : JSNative) (nargs : nat) (name : jsid)
  | PlainObject.

Record JSObject := mkObject {
  obj_kind : ObjectKind;
  obj_props : list (jsid * Property);
}.

(** The C++ class: its only data member, an [unsigned long].  zlib's
    [crc32] returns the same type, so nothing is lost when its result is
    stored. *)
Record Crc := mkCrc { m_crc : Z }.

(** ** Errors *)

Inductive JSErrNum :=
  | JSMSG_MORE_ARGS_NEEDED
  | JSMSG_CANT_CALL_CLASS_CONSTRUCTOR
  | JSMSG_OUT_OF_MEMORY.

(** A pending exception, by the call that reported it. *)
Inductive Exception :=
  | ErrorASCII (message : string)
  | ErrorNumber (number : JSErrNum) (args : list string).

(** ** State *)

Record State := mkState {
  heap : gmap loc JSObject;       (* the engine's object heap *)
  mem_free : nat;                 (* allocations the runtime can still serve *)
  pending : option Exception;     (* the context's pending exception *)
  crcs : gmap ptr Crc;            (* live [Crc] objects on the C++ free store *)
  deleted : list ptr;             (* every [delete], most recent first *)
  global : option loc;            (* the current global object, if any *)
}.

Definition set_heap (f : gmap loc JSObject -> gmap loc JSObject) (cx : State) : State :=
  mkState (f (heap cx)) (mem_free cx) (pending cx) (crcs cx) (deleted cx) (global cx).

Definition set_pending (e : option Exception) (cx : State) : State :=
  mkState (heap cx) (mem_free cx) e (crcs cx) (deleted cx) (global cx).

Definition set_mem_free (n : nat) (cx : State) : State :=
  mkState (heap cx) n (pending cx) (crcs cx) (deleted cx) (global cx).

Definition set_crcs (f : gmap ptr Crc -> gmap ptr Crc) (cx : State) : State :=
  mkState (heap cx) (mem_free cx) (pending cx) (f (crcs cx)) (deleted cx) (global cx).

(** ** The monad of engine code

    A computation reads and writes the state.  [None] stands for undefined
    behaviour of the C++ program (a dangling pointer, the private slot of
    an object that has none). *)

Definition M (A : Type) : Type := State -> option (A * State).

Definition ret {A} (a : A) : M A := fun cx => Some (a, cx).

Definition bind {A B} (m : M A) (k : A -> M B) : M B :=
  fun cx => match m cx with
            | Some (a, cx') => k a cx'
            | None => None
            end.

Definition undefined_behaviour {A} : M A := fun _ => None.

(** A partial operation used where it is not defined is undefined behaviour. *)
Definition defined {A} (o : option A) : M A :=
  match o with Some a => ret a | None => undefined_behaviour end.

Definition get_state : M State := fun cx => Some (cx, cx).

Definition modify (f : State -> State) : M unit := fun cx => Some (tt, f cx).

Notation "'let!' x ':=' m 'in' k" := (bind m (fun x => k))
  (at level 10, x pattern, m at level 100, k at level 200).
Notation "'run!' m 'in' k" := (bind m (fun _ => k))
  (at level 10, m at level 100, k at level 200).

(** ** The engine interface (JSAPI)

    The entry points of SpiderMonkey that the class calls.  Each one that
    may allocate takes one unit of [mem_free] and, when none is left,
    reports out of memory and fails the way the engine does (a null
    pointer or [false]). *)

Inductive JSClass := klass | globalClass.

Record CallArgs := mkCallArgs {
  constructing : bool;      (* [args.isConstructing()] *)
  thisv : Value;            (* the [this] value of the call *)
  argv : list Value;        (* the actual arguments *)
  rval : Value;             (* the return-value slot *)
}.

Abbreviation AutoIdVector := (list jsid) (only parsing).

Module JSAPI.

Definition JS_ReportErrorASCII (message : string) : M unit :=
  modify (set_pending (Some (ErrorASCII message))).

Definition JS_ReportErrorNumberASCII (number : JSErrNum) (args : list string) : M unit :=
  modify (set_pending (Some (ErrorNumber number args))).

Definition JS_ReportOutOfMemory : M unit :=
  modify (set_pending (Some (ErrorNumber JSMSG_OUT_OF_MEMORY []))).

(** Take one unit of memory; [false] (with the report) when there is none. *)
Definition allocate : M bool :=
  let! cx := get_state in
  match mem_free cx with
  | O => run! JS_ReportOutOfMemory in ret false
  | S n => run! modify (set_mem_free n) in ret true
  end.

(** A new object at an address not yet in the heap. *)
Definition new_object (o : JSObject) : M (option loc) :=
  let! ok := allocate in
  if ok : bool then
    let! cx := get_state in
    let l := fresh (dom (heap cx)) in
    run! modify (set_heap <[l := o]>) in
    ret (Some l)
  else ret None.

Definition object_of_class (clasp : JSClass) : JSObject :=
  match clasp with
  | klass => mkObject (CrcObject None) []
  | globalClass => mkObject PlainObject []
  end.

Definition JS_NewObjectForConstructor (clasp : JSClass) (args : CallArgs) : M (option loc) :=
  new_object (object_of_class clasp).

(** The private slot exists on objects of a class with
    [JSCLASS_HAS_PRIVATE] only. *)
Definition JS_GetPrivate (obj : loc) : M (option ptr) :=
  let! cx := get_state in
  match heap cx !! obj with
  | Some (mkObject (CrcObject priv) _) => ret priv
  | _ => undefined_behaviour
  end.

Definition JS_SetPrivate (obj : loc) (data : option ptr) : M unit :=
  let! cx := get_state in
  match heap cx !! obj with
  | Some (mkObject (CrcObject _) props) =>
      modify (set_heap <[obj := mkObject (CrcObject data) props]>)
  | _ => undefined_behaviour
  end.

Definition JS_IsUint8Array (obj : loc) : M bool :=
  let! cx := get_state in
  match heap cx !! obj with
  | Some (mkObject (Uint8ArrayObject _) _) => ret true
  | _ => ret false
  end.

Definition JS_GetTypedArrayLength (obj : loc) : M Z :=
  let! cx := get_state in
  match heap cx !! obj with
  | Some (mkObject (Uint8ArrayObject data) _) => ret (Z.of_nat (length data))
  | _ => undefined_behaviour
  end.

(** The data pointer of a typed array.  It is null for an array whose
    buffer was detached only, and nothing in this program detaches one. *)
Definition JS_GetUint8ArrayData (obj : loc) : M (option (list byte)) :=
  let! cx := get_state in
  match heap cx !! obj with
  | Some (mkObject (Uint8ArrayObject data) _) => ret (Some data)
  | _ => undefined_behaviour
  end.

(** Properties are kept in definition order; redefining a key replaces
    its entry in place. *)
Fixpoint put_property (id : jsid) (p : Property) (props : list (jsid * Property))
  : list (jsid * Property) :=
  match props with
  | [] => [(id, p)]
  | (k, q) :: rest =>
      if decide (k = id) then (id, p) :: rest else (k, q) :: put_property id p rest
  end.

Fixpoint get_property (id : jsid) (props : list (jsid * Property)) : option Property :=
  match props with
  | [] => None
  | (k, q) :: rest => if decide (k = id) then Some q else get_property id rest
  end.

Definition define_property (obj : loc) (id : jsid) (p : Property) : M unit :=
  let! cx := get_state in
  match heap cx !! obj with
  | Some (mkObject kind props) =>
      modify (set_heap <[obj := mkObject kind (put_property id p props)]>)
  | None => undefined_behaviour
  end.

Definition new_native_function (call : JSNative) (nargs : nat) (name : jsid)
  : M (option loc) :=
  new_object (mkObject (FunctionObject call nargs name) []).

Definition JS_DefineFunctionById (obj : loc) (id : jsid) (call : JSNative)
    (nargs : nat) (attrs : Z) : M (option loc) :=
  let! f := new_native_function call nargs id in
  match f with
  | Some fl =>
      run! define_property obj id (DataProperty (ObjectValue fl) attrs) in
      ret (Some fl)
  | None => ret None
  end.

(** An accessor function object for a native, when there is one. *)
Definition new_accessor (native : option JSNative) (nargs : nat) (id : jsid)
  : M (option (option loc)) :=
  match native with
  | None => ret (Some None)
  | Some call =>
      let! f := new_native_function call nargs id in
      match f with
      | Some fl => ret (Some (Some fl))
      | None => ret None
      end
  end.

Definition JS_DefinePropertyById (obj : loc) (id : jsid)
    (getter setter : option JSNative) (attrs : Z) : M bool :=
  let! g := new_accessor getter 0 id in
  match g with
  | None => ret false
  | Some gl =>
      let! s := new_accessor setter 1 id in
      match s with
      | None => ret false
      | Some sl =>
          run! define_property obj id (AccessorProperty gl sl attrs) in
          ret true
      end
  end.

Definition class_name (clasp : JSClass) : string :=
  match clasp with klass => "Crc" | globalClass => "ResolveGlobal" end.

Definition JSPROP_READONLY : Z := 0x02.
Definition JSPROP_PERMANENT : Z := 0x04.

Definition CurrentGlobalOrNull : M (option loc) :=
  let! cx := get_state in ret (global cx).

(** [JS_InitClass] without a parent prototype and without predefined
    members: a prototype object of the class, a constructor function
    bound to it, and the constructor under the class name in [obj]. *)
Definition JS_InitClass (obj : loc) (clasp : JSClass) (ctor : JSNative) (nargs : nat)
  : M (option loc) :=
  let! proto := new_object (object_of_class clasp) in
  match proto with
  | None => ret None
  | Some proto =>
      let name := JSID_STRING (class_name clasp) in
      let! fn := new_native_function ctor nargs name in
      match fn with
      | None => ret None
      | Some fn =>
          run! define_property fn (JSID_STRING "prototype")
                 (DataProperty (ObjectValue proto)
                               (Z.lor JSPROP_PERMANENT JSPROP_READONLY)) in
          run! define_property proto (JSID_STRING "constructor")
                 (DataProperty (ObjectValue fn) 0) in
          run! define_property obj name (DataProperty (ObjectValue fn) 0) in
          ret (Some proto)
      end
  end.

(** Atomizing an ASCII literal gives the key for that name. *)
Definition JS_AtomizeAndPinString (s : string) : string := s.
Definition INTERNED_STRING_TO_JSID (s : string) : jsid := JSID_STRING s.

Definition JSID_IS_STRING (id : jsid) : bool :=
  match id with JSID_STRING _ => true | _ => false end.

(** Defined on string keys only. *)
Definition JSID_TO_FLAT_STRING (id : jsid) : option string :=
  match id with JSID_STRING s => Some s | _ => None end.

Definition JS_FlatStringEqualsAscii (str : string) (asciiBytes : string) : bool :=
  bool_decide (str = asciiBytes).

(** [properties.append(id)]. *)
Definition append (properties : AutoIdVector) (id : jsid) : M (bool * AutoIdVector) :=
  let! ok := allocate in
  if ok : bool then ret (true, properties ++ [id]) else ret (false, properties).

(** [JS::CallArgs]. *)
Definition isConstructing (args : CallArgs) : bool := constructing args.

Definition isObject (v : Value) : bool :=
  match v with ObjectValue _ => true | _ => false end.

(** [v.toObject()], defined on object values only. *)
Definition toObject (v : Value) : option loc :=
  match v with ObjectValue o => Some o | _ => None end.

(** [args.computeThis(cx)]: an object [this] is returned as it is; the
    boxing of a primitive [this] is left outside the model. *)
Definition computeThis (args : CallArgs) : M Value :=
  if isObject (thisv args) then ret (thisv args) else undefined_behaviour.

Definition requireAtLeast (args : CallArgs) (fnname : string) (required : nat) : M bool :=
  if (length (argv args) <? required)%nat
  then run! JS_ReportErrorNumberASCII JSMSG_MORE_ARGS_NEEDED [fnname] in ret false
  else ret true.

(** [args[i]], defined below [args.length()] only. *)
Definition index (args : CallArgs) (i : nat) : option Value := argv args !! i.

Definition set_rval (v : Value) (args : CallArgs) : CallArgs :=
  mkCallArgs (constructing args) (thisv args) (argv args) v.

End JSAPI.

(** ** The C++ free store *)

Module Cxx.

(** [new Crc(...)]: a pointer that is not live. *)
Definition new (c : Crc) : M ptr :=
  let! cx := get_state in
  let p := fresh (dom (crcs cx)) in
  run! modify (set_crcs <[p := c]>) in
  ret p.

(** [delete p] for a non-null [p]; deleting what is not live is undefined. *)
Definition delete (p : ptr) : M unit :=
  let! cx := get_state in
  match crcs cx !! p with
  | Some _ =>
      modify (fun cx => mkState (heap cx) (mem_free cx) (pending cx)
                                (base.delete p (crcs cx)) (p :: deleted cx) (global cx))
  | None => undefined_behaviour
  end.

(** [p->m_crc] read and written. *)
Definition load (p : ptr) : M Z :=
  let! cx := get_state in
  defined (m_crc <$> crcs cx !! p).

Definition store (p : ptr) (v : Z) : M unit :=
  let! cx := get_state in
  match crcs cx !! p with
  | Some _ => modify (set_crcs <[p := mkCrc v]>)
  | None => undefined_behaviour
  end.

(** [std::numeric_limits<unsigned>::max()], for a 32-bit [unsigned]. *)
Definition UINT_MAX : Z := 2 ^ 32 - 1.

(** The conversions [unsigned(x)] and [uint32_t(x)]. *)
Definition to_unsigned (x : Z) : Z := x mod 2 ^ 32.
Definition to_uint32_t (x : Z) : Z := x mod 2 ^ 32.

End Cxx.

(** ** The class [Crc] *)

Import JSAPI.

Section CrcClass.

(** zlib's [crc32 (crc, buf, len)]; [buf] is [None] for [Z_NULL]. *)
Variable crc32 : Z -> option (list byte) -> Z -> Z.

(** [Crc(void) : m_crc(zlib::crc32(0L, nullptr, 0))]. *)
Definition Crc_init : Crc := mkCrc (crc32 0 None 0).

Definition updateImpl (this : ptr) (args : CallArgs) : M (bool * CallArgs) :=
  let! enough := requireAtLeast args "update" 1 in
  if negb enough then ret (false, args) else
  let! arg0 := defined (index args 0) in
  let! not_uint8 :=
    (if negb (isObject arg0) then ret true
     else let! o := defined (toObject arg0) in
          let! is_uint8 := JS_IsUint8Array o in
          ret (negb is_uint8)) in
  if not_uint8 : bool then
    run! JS_ReportErrorASCII "argument to update() should be a Uint8Array" in
    ret (false, args)
  else
  let! buffer := defined (toObject arg0) in
  let! len := JS_GetTypedArrayLength buffer in
  if len >? Cxx.UINT_MAX then
    run! JS_ReportErrorASCII "array has too many bytes" in
    ret (false, args)
  else
  let! data := JS_GetUint8ArrayData buffer in
  let! crc := Cxx.load this in
  run! Cxx.store this (crc32 crc data (Cxx.to_unsigned len)) in
  ret (true, set_rval UndefinedValue args).

Definition getChecksumImpl (this : ptr) (args : CallArgs) : M (bool * CallArgs) :=
  let! crc := Cxx.load this in
  ret (true, set_rval (NumberValue (Cxx.to_uint32_t crc)) args).

Definition getPriv (obj : loc) : M (option ptr) := JS_GetPrivate obj.

Definition isPrototype (obj : loc) : M bool :=
  let! priv := getPriv obj in
  ret (bool_decide (priv = None)).

Definition checkIsInstance (obj : loc) (what : string) : M bool :=
  let! proto := isPrototype obj in
  if proto : bool then
    run! JS_ReportErrorASCII ("can't " +:+ what +:+ " on Crc.prototype") in
    ret false
  else ret true.

Definition constructor (args : CallArgs) : M (bool * CallArgs) :=
  if negb (isConstructing args) then
    run! JS_ReportErrorNumberASCII JSMSG_CANT_CALL_CLASS_CONSTRUCTOR [] in
    ret (false, args)
  else
  let! newObj := JS_NewObjectForConstructor klass args in
  match newObj with
  | None => ret (false, args)
  | Some obj =>
      let! priv := Cxx.new Crc_init in
      run! JS_SetPrivate obj (Some priv) in
      ret (true, set_rval (ObjectValue obj) args)
  end.

Definition update (args : CallArgs) : M (bool * CallArgs) :=
  let! this := computeThis args in
  let! thisObj := defined (toObject this) in
  let! instance := checkIsInstance thisObj "call update()" in
  if negb instance then ret (false, args) else
  let! priv := getPriv thisObj in
  let! self := defined priv in
  updateImpl self args.

Definition getChecksum (args : CallArgs) : M (bool * CallArgs) :=
  let! this := computeThis args in
  let! thisObj := defined (toObject this) in
  let! instance := checkIsInstance thisObj "read checksum" in
  if negb instance then ret (false, args) else
  let! priv := getPriv thisObj in
  let! self := defined priv in
  getChecksumImpl self args.

Definition newEnumerate (obj : loc) (properties : AutoIdVector) (enumerableOnly : bool)
  : M (bool * AutoIdVector) :=
  let! proto := isPrototype obj in
  if negb proto then ret (true, properties) else
  let idUpdate := INTERNED_STRING_TO_JSID (JS_AtomizeAndPinString "update") in
  let! (ok, properties) := append properties idUpdate in
  if negb ok then ret (false, properties) else
  let idChecksum := INTERNED_STRING_TO_JSID (JS_AtomizeAndPinString "checksum") in
  let! (ok, properties) := append properties idChecksum in
  if negb ok then ret (false, properties) else
  ret (true, properties).

(** [resolved] is the content of [*resolved] on entry; the second
    component of the result is its content on return. *)
Definition resolve (obj : loc) (id : jsid) (resolved : bool) : M (bool * bool) :=
  let! proto := isPrototype obj in
  if negb proto then ret (true, false) else
  if negb (JSID_IS_STRING id) then ret (true, false) else
  let! str := defined (JSID_TO_FLAT_STRING id) in
  if JS_FlatStringEqualsAscii str "update" then
    let! f := JS_DefineFunctionById obj id Native_update 1 JSPROP_ENUMERATE in
    if negb (bool_decide (is_Some f)) then ret (false, resolved) else
    ret (true, true)
  else
  if JS_FlatStringEqualsAscii str "checksum" then
    let! ok := JS_DefinePropertyById obj id (Some Native_getChecksum) None JSPROP_ENUMERATE in
    if negb ok then ret (false, resolved) else
    ret (true, true)
  else
  ret (true, false).

(** The parameter [names] of the hook is not used and is left out. *)
Definition mayResolve (id : jsid) (maybeObj : option loc) : bool :=
  if negb (JSID_IS_STRING id) then false else
  match JSID_TO_FLAT_STRING id with
  | Some str =>
      JS_FlatStringEqualsAscii str "update" || JS_FlatStringEqualsAscii str "checksum"
  | None => false
  end.

Definition finalize (obj : loc) : M unit :=
  let! priv := getPriv obj in
  match priv with
  | Some p =>
      run! Cxx.delete p in
      JS_SetPrivate obj None
  | None => ret tt
  end.

Definition DefinePrototype : M bool :=
  let! current := CurrentGlobalOrNull in
  let! global := defined current in
  let! proto := JS_InitClass global klass Native_constructor 0 in
  match proto with
  | None => ret false
  | Some proto =>
      (* Here's how we tell the prototype apart from instances. *)
      run! JS_SetPrivate proto None in
      ret true
  end.

End CrcClass.

(** ** zlib

    The reference CRC-32 (reflected polynomial [0xEDB88320], one bit at a
    time), with zlib's conventions: a null buffer gives the initial value
    [0], and the running value is complemented on entry and on exit. *)

Module Zlib.

Definition byte_to_Z (b : byte) : Z := Z.of_N (Byte.to_N b).

Definition crc_bit (c : Z) : Z :=
  if Z.testbit c 0 then Z.lxor (Z.shiftr c 1) 0xEDB88320 else Z.shiftr c 1.

Definition crc_byte (c : Z) (b : byte) : Z :=
  Nat.iter 8 crc_bit (Z.lxor c (byte_to_Z b)).

Definition crc32 (crc : Z) (buf : option (list byte)) (len : Z) : Z :=
  match buf with
  | None => 0
  | Some bytes =>
      Z.lxor (fold_left crc_byte (firstn (Z.to_nat len) bytes) (Z.lxor crc 0xFFFFFFFF))
             0xFFFFFFFF
  end.

End Zlib.

(** ** Concrete inputs *)

Definition bytes_of (l : list Z) : list byte :=
  omap (fun z => Byte.of_N (Z.to_N z)) l.

(** A fresh context with a global object and room for [n] allocations. *)
Definition initial_state (n : nat) : State :=
  mkState {[ 1%positive := mkObject PlainObject [] ]} n None ∅ [] (Some 1%positive).

(** ** Script-level calls

    The native calls the engine makes for the statements of
    [testProgram]: [new Crc()], [crc.update(new Uint8Array(bytes))] and
    [crc.checksum], once the lookups have led it to the natives.  A result
    of [None] (or [false]) means that the call threw. *)

Section Script.

Variable crc32 : Z -> option (list byte) -> Z -> Z.

Definition new_Uint8Array (bytes : list byte) : M (option loc) :=
  new_object (mkObject (Uint8ArrayObject bytes) []).

Definition js_new_Crc : M (option loc) :=
  let! (ok, args) := constructor crc32 (mkCallArgs true UndefinedValue [] UndefinedValue) in
  if ok : bool then ret (toObject (rval args)) else ret None.

Definition js_update (crc : loc) (bytes : list byte) : M bool :=
  let! array := new_Uint8Array bytes in
  match array with
  | None => ret false
  | Some a =>
      let! (ok, _) := update crc32 (mkCallArgs false (ObjectValue crc) [ObjectValue a]
                                               UndefinedValue) in
      ret ok
  end.

Definition js_checksum (crc : loc) : M (option Value) :=
  let! (ok, args) := getChecksum (mkCallArgs false (ObjectValue crc) [] UndefinedValue) in
  if ok : bool then ret (Some (rval args)) else ret None.

Fixpoint js_updates (crc : loc) (chunks : list (list byte)) : M bool :=
  match chunks with
  | [] => ret true
  | bytes :: rest =>
      let! ok := js_update crc bytes in
      if ok : bool then js_updates crc rest else ret false
  end.

(** [const crc = new Crc(); crc.update(...); ...; crc.checksum]. *)
Definition checksum_of_chunks (chunks : list (list byte)) : M (option Value) :=
  let! crc := js_new_Crc in
  match crc with
  | None => ret None
  | Some crc =>
      let! ok := js_updates crc chunks in
      if ok : bool then js_checksum crc else ret None
  end.

End Script.

(** [testProgram], run after [DefinePrototype]. *)
Definition testProgram : M (option Value) :=
  let! defined_ok := DefinePrototype in
  if defined_ok : bool
  then checksum_of_chunks Zlib.crc32 [bytes_of [1; 2; 3; 4; 5]]
  else ret None.

(** ** The vocabulary of the specification *)

(** Whether [obj] is an object of the class, and what its private slot holds. *)
Definition private_of (cx : State) (obj : loc) : option (option ptr) :=
  match heap cx !! obj with
  | Some (mkObject (CrcObject priv) _) => Some priv
  | _ => None
  end.

(** The prototype is the object of the class without attached state. *)
Definition prototype_object (cx : State) (obj : loc) : Prop :=
  private_of cx obj = Some None.

(** A proper instance: its private slot points to live state. *)
Definition instance_object (cx : State) (obj : loc) (p : ptr) : Prop :=
  private_of cx obj = Some (Some p) /\ is_Some (crcs cx !! p).

(** The accumulator of the state at [p]. *)
Definition accumulator (cx : State) (p : ptr) : option Z := m_crc <$> crcs cx !! p.

(** The members an object has. *)
Definition member (cx : State) (obj : loc) (id : jsid) : option Property :=
  match heap cx !! obj with
  | Some o => get_property id (obj_props o)
  | None => None
  end.

(** The error kinds of the specification, by what the code reports. *)
Inductive ErrorKind :=
  | ConstructorMisuseError
  | PrototypeUsageError
  | ArgumentTypeError
  | CapacityError.

Definition error_kind (e : Exception) : option ErrorKind :=
  match e with
  | ErrorNumber JSMSG_CANT_CALL_CLASS_CONSTRUCTOR _ => Some ConstructorMisuseError
  | ErrorNumber JSMSG_MORE_ARGS_NEEDED _ => Some ArgumentTypeError
  | ErrorNumber JSMSG_OUT_OF_MEMORY _ => None
  | ErrorASCII message =>
      if bool_decide (message = "can't call update() on Crc.prototype") then
        Some PrototypeUsageError
      else if bool_decide (message = "can't read checksum on Crc.prototype") then
        Some PrototypeUsageError
      else if bool_decide (message = "argument to update() should be a Uint8Array") then
        Some ArgumentTypeError
      else if bool_decide (message = "array has too many bytes") then
        Some CapacityError
      else None
  end.

(** The outcome of a native call: what it returned and the error pending. *)
Definition raised (r : option (bool * CallArgs * State)) : option (option ErrorKind) :=
  match r with
  | Some (false, _, cx) => error_kind <$> pending cx
  | _ => None
  end.

(** ** States and outcomes named in the statements *)

(** The bytes of a value that is a [Uint8Array]. *)
Definition uint8_data (cx : State) (v : Value) : option (list byte) :=
  match v with
  | ObjectValue o =>
      match heap cx !! o with
      | Some (mkObject (Uint8ArrayObject data) _) => Some data
      | _ => None
      end
  | _ => None
  end.

(** What [update] does on an instance whose accumulator is [c]. *)
Definition update_result (crc32 : Z -> option (list byte) -> Z -> Z)
    (cx : State) (p : ptr) (c : Z) (args : CallArgs) : bool * CallArgs * State :=
  match argv args with
  | [] =>
      (false, args, set_pending (Some (ErrorNumber JSMSG_MORE_ARGS_NEEDED ["update"])) cx)
  | arg0 :: _ =>
      match uint8_data cx arg0 with
      | None =>
          (false, args,
           set_pending (Some (ErrorASCII "argument to update() should be a Uint8Array")) cx)
      | Some data =>
          if Z.of_nat (length data) >? Cxx.UINT_MAX then
            (false, args, set_pending (Some (ErrorASCII "array has too many bytes")) cx)
          else
            (true, set_rval UndefinedValue args,
             set_crcs <[p := mkCrc (crc32 c (Some data) (Z.of_nat (length data)))]> cx)
      end
  end.

(** C3 as the specification words it: with a number of arguments other
    than one, [update] on an instance fails. *)
Definition update_requires_exactly_one_argument
    (crc32 : Z -> option (list byte) -> Z -> Z) : Prop :=
  forall cx obj p c args,
    private_of cx obj = Some (Some p) ->
    accumulator cx p = Some c ->
    thisv args = ObjectValue obj ->
    length (argv args) <> 1%nat ->
    exists args' cx', update crc32 args cx = Some (false, args', cx').

(** The state after a successful [new Crc()]. *)
Definition constructed (crc32 : Z -> option (list byte) -> Z -> Z) (cx : State) : State :=
  let obj := fresh (dom (heap cx)) in
  let p := fresh (dom (crcs cx)) in
  mkState (<[obj := mkObject (CrcObject (Some p)) []]> (heap cx))
          (pred (mem_free cx)) (pending cx)
          (<[p := Crc_init crc32]> (crcs cx)) (deleted cx) (global cx).

(** The state after [crc.update(new Uint8Array(bytes))] on the instance
    with state [p] and accumulator [c]. *)
Definition updated (crc32 : Z -> option (list byte) -> Z -> Z)
    (p : ptr) (c : Z) (bytes : list byte) (cx : State) : State :=
  mkState (<[fresh (dom (heap cx)) := mkObject (Uint8ArrayObject bytes) []]> (heap cx))
          (pred (mem_free cx)) (pending cx)
          (<[p := mkCrc (crc32 c (Some bytes) (Z.of_nat (length bytes)))]> (crcs cx))
          (deleted cx) (global cx).

(** The accumulator after folding the chunks in, one call each. *)
Definition fold_chunks (crc32 : Z -> option (list byte) -> Z -> Z)
    (c : Z) (chunks : list (list byte)) : Z :=
  fold_left (fun c bytes => crc32 c (Some bytes) (Z.of_nat (length bytes))) chunks c.

(** The state after a member was defined on the prototype [obj]: a new
    function object [fn], and the property [prop] under [id]. *)
Definition with_member (cx : State) (obj : loc) (props : list (jsid * Property))
    (id : jsid) (fn : JSObject) (prop : Property) : State :=
  mkState (<[obj := mkObject (CrcObject None) (put_property id prop props)]>
             (<[fresh (dom (heap cx)) := fn]> (heap cx)))
          (pred (mem_free cx)) (pending cx) (crcs cx) (deleted cx) (global cx).

(** The names the enumeration hook reports. *)
Definition resolvable_names : list jsid := [JSID_STRING "update"; JSID_STRING "checksum"].

(** [n] runs of the finalizer on the same object. *)
Fixpoint finalize_times (n : nat) (obj : loc) : M unit :=
  match n with
  | O => ret tt
  | S n => run! finalize obj in finalize_times n obj
  end.

(** The state after the finalizer released the state [p] of [obj]. *)
Definition finalized (cx : State) (obj : loc) (props : list (jsid * Property)) (p : ptr)
  : State :=
  mkState (<[obj := mkObject (CrcObject None) props]> (heap cx)) (mem_free cx) (pending cx)
          (base.delete p (crcs cx)) (p :: deleted cx) (global cx).

(** The state a computation leaves. *)
Definition state_after {A} (m : M A) (cx : State) : State :=
  match m cx with
  | Some (_, cx') => cx'
  | None => cx
  end.

(** After [DefinePrototype]: the global at 1, the prototype at 2, the
    constructor at 3. *)
Definition proto_state : State := state_after DefinePrototype (initial_state 10).

(** After [new Crc()]: an instance at 4 with its state at 1. *)
Definition instance_state : State := state_after (js_new_Crc Zlib.crc32) proto_state.

(** After [new Uint8Array([1, 2, 3, 4, 5])]: the array at 5. *)
Definition array_state : State :=
  state_after (new_Uint8Array (bytes_of [1; 2; 3; 4; 5])) instance_state.

(** A plain call on [this], and a call with [new]. *)
Definition call_on (this : loc) (arguments : list Value) : CallArgs :=
  mkCallArgs false (ObjectValue this) arguments UndefinedValue.

Definition new_call : CallArgs := mkCallArgs true UndefinedValue [] UndefinedValue.

(** The out-of-memory report of the engine. *)
Definition out_of_memory : Exception := ErrorNumber JSMSG_OUT_OF_MEMORY [].

(** Two lookups in a row: the engine resolves [first], then [second], on
    the same object. *)
Definition resolve_then (first second : string) (obj : loc) : M (bool * bool) :=
  run! resolve obj (JSID_STRING first) false in
  resolve obj (JSID_STRING second) false.

(** An object of another class than [Crc::klass]. *)
Definition foreign_kind (kind : ObjectKind) : bool :=
  match kind with
  | CrcObject _ => false
  | _ => true
  end.

(** * Properties *)

(** ** Running the primitives *)

Ltac run_monad :=
  repeat (unfold bind, ret, get_state, modify, defined, undefined_behaviour; cbn).

Lemma bind_run {A B} (m : M A) (k : A -> M B) cx a cx' :
  m cx = Some (a, cx') -> bind m k cx = k a cx'.
Proof. unfold bind. intros ->. reflexivity. Qed.

Lemma private_of_heap cx obj priv :
  private_of cx obj = Some priv ->
  exists props, heap cx !! obj = Some (mkObject (CrcObject priv) props).
Proof.
  unfold private_of. destruct (heap cx !! obj) as [[[] props]|]; try discriminate.
  intros [= ->]. eauto.
Qed.

Lemma getPriv_run cx obj priv :
  private_of cx obj = Some priv -> getPriv obj cx = Some (priv, cx).
Proof.
  intros [props H]%private_of_heap.
  unfold getPriv, JS_GetPrivate, bind, get_state. rewrite H. reflexivity.
Qed.

Lemma isPrototype_run cx obj priv :
  private_of cx obj = Some priv ->
  isPrototype obj cx = Some (bool_decide (priv = None), cx).
Proof.
  intros H. unfold isPrototype. rewrite (bind_run _ _ _ _ _ (getPriv_run _ _ _ H)).
  reflexivity.
Qed.

Lemma checkIsInstance_prototype cx obj what :
  prototype_object cx obj ->
  checkIsInstance obj what cx =
    Some (false, set_pending (Some (ErrorASCII ("can't " +:+ what +:+ " on Crc.prototype"))) cx).
Proof.
  intros H. unfold checkIsInstance.
  rewrite (bind_run _ _ _ _ _ (isPrototype_run _ _ _ H)). reflexivity.
Qed.

Lemma checkIsInstance_instance cx obj p what :
  private_of cx obj = Some (Some p) ->
  checkIsInstance obj what cx = Some (true, cx).
Proof.
  intros H. unfold checkIsInstance.
  rewrite (bind_run _ _ _ _ _ (isPrototype_run _ _ _ H)). reflexivity.
Qed.

Lemma fresh_heap (cx : State) : heap cx !! fresh (dom (heap cx)) = None.
Proof. apply not_elem_of_dom, is_fresh. Qed.

Lemma fresh_crcs (cx : State) : crcs cx !! fresh (dom (crcs cx)) = None.
Proof. apply not_elem_of_dom, is_fresh. Qed.

Lemma fresh_heap_ne (cx : State) obj : is_Some (heap cx !! obj) -> fresh (dom (heap cx)) <> obj.
Proof. intros [o Ho] Heq. rewrite <- Heq, fresh_heap in Ho. discriminate. Qed.

Lemma private_of_is_Some cx obj priv :
  private_of cx obj = Some priv -> is_Some (heap cx !! obj).
Proof. intros [props H]%private_of_heap. eauto. Qed.

Lemma get_put_property_eq id p props : get_property id (put_property id p props) = Some p.
Proof.
  induction props as [|[k q] rest IH]; cbn.
  - rewrite decide_True; reflexivity.
  - destruct (decide (k = id)); cbn.
    + rewrite decide_True; reflexivity.
    + rewrite decide_False; assumption.
Qed.

Lemma get_put_property_ne id id' p props :
  id' <> id -> get_property id' (put_property id p props) = get_property id' props.
Proof.
  intros Hne. induction props as [|[k q] rest IH]; cbn.
  - rewrite decide_False; congruence.
  - destruct (decide (k = id)) as [->|]; cbn.
    + rewrite !decide_False; congruence.
    + destruct (decide (k = id')); [reflexivity|assumption].
Qed.

Lemma lxor_involutive a m : Z.lxor (Z.lxor a m) m = a.
Proof. rewrite Z.lxor_assoc, Z.lxor_nilpotent, Z.lxor_0_r. reflexivity. Qed.

Lemma to_unsigned_small len : 0 <= len -> (len >? Cxx.UINT_MAX) = false -> Cxx.to_unsigned len = len.
Proof.
  unfold Cxx.to_unsigned, Cxx.UINT_MAX. intros H0 H.
  rewrite Z.gtb_ltb in H. apply Z.ltb_ge in H. apply Z.mod_small. lia.
Qed.

(** ** Calls on the prototype *)

(** C1: on the prototype (an object of the class with no attached state),
    [update] and the [checksum] getter both fail, with the error
    "can't ... on Crc.prototype" pending, a prototype-usage error; the
    call changes nothing but the pending exception, so the state of every
    instance is as before. *)
Theorem C1_prototype_usage_error crc32 cx obj args :
  prototype_object cx obj ->
  thisv args = ObjectValue obj ->
  let cx_update :=
    set_pending (Some (ErrorASCII "can't call update() on Crc.prototype")) cx in
  let cx_checksum :=
    set_pending (Some (ErrorASCII "can't read checksum on Crc.prototype")) cx in
  update crc32 args cx = Some (false, args, cx_update)
  /\ getChecksum args cx = Some (false, args, cx_checksum)
  /\ raised (update crc32 args cx) = Some (Some PrototypeUsageError)
  /\ raised (getChecksum args cx) = Some (Some PrototypeUsageError)
  /\ crcs cx_update = crcs cx /\ crcs cx_checksum = crcs cx
  /\ heap cx_update = heap cx /\ heap cx_checksum = heap cx.
Proof.
  intros Hproto Hthis cx_update cx_checksum.
  assert (Hu : update crc32 args cx = Some (false, args, cx_update)).
  { unfold update, computeThis. rewrite Hthis. simpl.
    unfold bind at 1. simpl. unfold bind at 1. simpl.
    rewrite (bind_run _ _ _ _ _ (checkIsInstance_prototype _ _ _ Hproto)).
    reflexivity. }
  assert (Hc : getChecksum args cx = Some (false, args, cx_checksum)).
  { unfold getChecksum, computeThis. rewrite Hthis. simpl.
    unfold bind at 1. simpl. unfold bind at 1. simpl.
    rewrite (bind_run _ _ _ _ _ (checkIsInstance_prototype _ _ _ Hproto)).
    reflexivity. }
  rewrite Hu, Hc. repeat split; reflexivity.
Qed.

(** ** [update] on an instance *)

Lemma updateImpl_run crc32 cx p c args :
  accumulator cx p = Some c ->
  updateImpl crc32 p args cx = Some (update_result crc32 cx p c args).
Proof.
  unfold accumulator. intros Hacc.
  destruct (crcs cx !! p) as [crc|] eqn:Hp; [|discriminate].
  injection Hacc as Hc.
  unfold updateImpl, update_result, requireAtLeast, index.
  destruct (argv args) as [|arg0 rest]; [reflexivity|].
  destruct arg0 as [| |b|n|s|o]; try reflexivity.
  unfold JS_IsUint8Array, JS_GetTypedArrayLength, JS_GetUint8ArrayData,
    Cxx.load, Cxx.store.
  run_monad.
  destruct (heap cx !! o) as [[[priv|data|call nargs name|] props]|] eqn:Ho;
    repeat (progress (run_monad; rewrite ?Ho)); try reflexivity.
  destruct (Z.of_nat (length data) >? Cxx.UINT_MAX) eqn:Hlen; [reflexivity|].
  repeat (progress (run_monad; rewrite ?Ho, ?Hp)).
  rewrite (to_unsigned_small _ (Nat2Z.is_nonneg _) Hlen), Hc. reflexivity.
Qed.

Lemma update_run crc32 cx obj p c args :
  private_of cx obj = Some (Some p) ->
  accumulator cx p = Some c ->
  thisv args = ObjectValue obj ->
  update crc32 args cx = Some (update_result crc32 cx p c args).
Proof.
  intros Hobj Hacc Hthis.
  unfold update, computeThis. rewrite Hthis. simpl.
  unfold bind at 1. simpl. unfold bind at 1. simpl.
  rewrite (bind_run _ _ _ _ _ (checkIsInstance_instance _ _ _ _ Hobj)). simpl.
  rewrite (bind_run _ _ _ _ _ (getPriv_run _ _ _ Hobj)). simpl.
  unfold bind at 1. simpl. apply updateImpl_run, Hacc.
Qed.

Lemma getChecksum_run cx obj p c args :
  private_of cx obj = Some (Some p) ->
  accumulator cx p = Some c ->
  thisv args = ObjectValue obj ->
  getChecksum args cx = Some (true, set_rval (NumberValue (Cxx.to_uint32_t c)) args, cx).
Proof.
  intros Hobj Hacc Hthis.
  unfold getChecksum, computeThis. rewrite Hthis. simpl.
  unfold bind at 1. simpl. unfold bind at 1. simpl.
  rewrite (bind_run _ _ _ _ _ (checkIsInstance_instance _ _ _ _ Hobj)). simpl.
  rewrite (bind_run _ _ _ _ _ (getPriv_run _ _ _ Hobj)). simpl.
  unfold bind at 1. simpl. unfold getChecksumImpl, Cxx.load. run_monad.
  unfold accumulator in Hacc. rewrite Hacc. reflexivity.
Qed.

(** C3 (amended): on an instance, [update] needs at least one argument and
    looks at the first one only.  It fails, with the error pending when it
    returns, in exactly three cases: no argument (an argument error), a
    first argument that is not a [Uint8Array] (an argument error), and a
    [Uint8Array] of more than [UINT_MAX] bytes (a capacity error).  In every
    other case it returns [true], sets the return value to [undefined] and
    leaves the pending exception as it was. *)
Theorem C3_update_argument_errors crc32 cx obj p c args :
  private_of cx obj = Some (Some p) ->
  accumulator cx p = Some c ->
  thisv args = ObjectValue obj ->
  (head (argv args) = None ->
     update crc32 args cx =
       Some (false, args,
             set_pending (Some (ErrorNumber JSMSG_MORE_ARGS_NEEDED ["update"])) cx)
     /\ raised (update crc32 args cx) = Some (Some ArgumentTypeError))
  /\ (forall arg0,
        head (argv args) = Some arg0 -> uint8_data cx arg0 = None ->
        update crc32 args cx =
          Some (false, args,
                set_pending
                  (Some (ErrorASCII "argument to update() should be a Uint8Array")) cx)
        /\ raised (update crc32 args cx) = Some (Some ArgumentTypeError))
  /\ (forall arg0 data,
        head (argv args) = Some arg0 -> uint8_data cx arg0 = Some data ->
        Z.of_nat (length data) > Cxx.UINT_MAX ->
        update crc32 args cx =
          Some (false, args,
                set_pending (Some (ErrorASCII "array has too many bytes")) cx)
        /\ raised (update crc32 args cx) = Some (Some CapacityError))
  /\ (forall arg0 data,
        head (argv args) = Some arg0 -> uint8_data cx arg0 = Some data ->
        Z.of_nat (length data) <= Cxx.UINT_MAX ->
        exists cx',
          update crc32 args cx = Some (true, set_rval UndefinedValue args, cx')
          /\ pending cx' = pending cx
          /\ accumulator cx' p = Some (crc32 c (Some data) (Z.of_nat (length data)))).
Proof.
  intros Hobj Hacc Hthis.
  rewrite (update_run _ _ _ _ _ _ Hobj Hacc Hthis). unfold update_result.
  destruct (argv args) as [|a rest]; cbn [head].
  - repeat split; try discriminate. 
  - split; [discriminate|].
    split; [|split].
    + intros arg0 [= ->] ->. split; reflexivity.
    + intros arg0 data [= ->] -> Hlen.
      apply Z.gtb_gt in Hlen. rewrite Hlen. split; reflexivity.
    + intros arg0 data [= ->] -> Hlen.
      destruct (Z.of_nat (length data) >? Cxx.UINT_MAX) eqn:E.
      { apply Z.gtb_gt in E. lia. }
      eexists. split; [reflexivity|]. split; [reflexivity|].
      unfold accumulator. cbn. rewrite lookup_insert_eq. reflexivity.
Qed.

(** C10: a failed [update] on an instance leaves the accumulator, the live
    states and the heap as they were; it only leaves an exception pending. *)
Theorem C10_failed_update_is_atomic crc32 cx obj p c args args' cx' :
  private_of cx obj = Some (Some p) ->
  accumulator cx p = Some c ->
  thisv args = ObjectValue obj ->
  update crc32 args cx = Some (false, args', cx') ->
  accumulator cx' p = Some c
  /\ crcs cx' = crcs cx
  /\ heap cx' = heap cx
  /\ args' = args
  /\ is_Some (pending cx').
Proof.
  intros Hobj Hacc Hthis.
  rewrite (update_run _ _ _ _ _ _ Hobj Hacc Hthis). unfold update_result.
  destruct (argv args) as [|a rest].
  { intros [= <- <-]. repeat split; eauto. }
  destruct (uint8_data cx a) as [data|].
  2: { intros [= <- <-]. repeat split; eauto. }
  destruct (Z.of_nat (length data) >? Cxx.UINT_MAX); [|discriminate].
  intros [= <- <-]. repeat split; eauto.
Qed.

(** ** Construction *)

Lemma constructor_run crc32 cx args :
  constructing args = true ->
  (0 < mem_free cx)%nat ->
  constructor crc32 args cx =
    Some (true, set_rval (ObjectValue (fresh (dom (heap cx)))) args, constructed crc32 cx).
Proof.
  intros Hc Hm. destruct (mem_free cx) as [|n] eqn:En; [lia|].
  unfold constructor, isConstructing. rewrite Hc. cbn [negb].
  unfold JS_NewObjectForConstructor, new_object, allocate, Cxx.new, JS_SetPrivate.
  run_monad. rewrite En. run_monad. rewrite lookup_insert_eq. run_monad.
  unfold constructed, set_heap, set_crcs, set_mem_free. cbn.
  rewrite insert_insert_eq, En. reflexivity.
Qed.

Lemma constructor_out_of_memory crc32 cx args :
  constructing args = true ->
  mem_free cx = 0%nat ->
  constructor crc32 args cx =
    Some (false, args, set_pending (Some (ErrorNumber JSMSG_OUT_OF_MEMORY [])) cx).
Proof.
  intros Hc Hm. unfold constructor, isConstructing. rewrite Hc. cbn [negb].
  unfold JS_NewObjectForConstructor, new_object, allocate, JS_ReportOutOfMemory.
  run_monad. rewrite Hm. reflexivity.
Qed.

Lemma constructed_private crc32 cx :
  private_of (constructed crc32 cx) (fresh (dom (heap cx))) =
    Some (Some (fresh (dom (crcs cx)))).
Proof. unfold private_of, constructed. cbn. rewrite lookup_insert_eq. reflexivity. Qed.

Lemma constructed_accumulator crc32 cx :
  accumulator (constructed crc32 cx) (fresh (dom (crcs cx))) = Some (crc32 0 None 0).
Proof. unfold accumulator, constructed. cbn. rewrite lookup_insert_eq. reflexivity. Qed.

Lemma js_new_Crc_run crc32 cx :
  (0 < mem_free cx)%nat ->
  js_new_Crc crc32 cx = Some (Some (fresh (dom (heap cx))), constructed crc32 cx).
Proof.
  intros Hm. unfold js_new_Crc.
  rewrite (bind_run _ _ _ _ _
             (constructor_run crc32 cx (mkCallArgs true UndefinedValue [] UndefinedValue)
                              eq_refl Hm)).
  reflexivity.
Qed.

Lemma js_new_Crc_out_of_memory crc32 cx :
  mem_free cx = 0%nat ->
  js_new_Crc crc32 cx =
    Some (None, set_pending (Some (ErrorNumber JSMSG_OUT_OF_MEMORY [])) cx).
Proof.
  intros Hm. unfold js_new_Crc.
  rewrite (bind_run _ _ _ _ _
             (constructor_out_of_memory crc32 cx
                (mkCallArgs true UndefinedValue [] UndefinedValue) eq_refl Hm)).
  reflexivity.
Qed.

Lemma js_checksum_run cx obj p c :
  private_of cx obj = Some (Some p) ->
  accumulator cx p = Some c ->
  js_checksum obj cx = Some (Some (NumberValue (Cxx.to_uint32_t c)), cx).
Proof.
  intros Hobj Hacc. unfold js_checksum.
  rewrite (bind_run _ _ _ _ _
             (getChecksum_run cx obj p c (mkCallArgs false (ObjectValue obj) [] UndefinedValue)
                              Hobj Hacc eq_refl)).
  reflexivity.
Qed.

(** C5: called as a plain function, the constructor fails with the
    class-constructor error (a constructor-misuse error) and changes nothing
    else.  Called with [new], and the engine having memory for the object,
    it returns a new object of the class (at an address unused before)
    whose private slot points to a newly allocated state initialised by
    [Crc()]; every other object and every other state is as before. *)
Theorem C5_constructor crc32 cx args :
  (constructing args = false ->
     constructor crc32 args cx =
       Some (false, args,
             set_pending (Some (ErrorNumber JSMSG_CANT_CALL_CLASS_CONSTRUCTOR [])) cx)
     /\ raised (constructor crc32 args cx) = Some (Some ConstructorMisuseError))
  /\ (constructing args = true -> (0 < mem_free cx)%nat ->
      exists obj p cx',
        constructor crc32 args cx = Some (true, set_rval (ObjectValue obj) args, cx')
        /\ heap cx !! obj = None
        /\ crcs cx !! p = None
        /\ heap cx' !! obj = Some (mkObject (CrcObject (Some p)) [])
        /\ crcs cx' !! p = Some (Crc_init crc32)
        /\ instance_object cx' obj p
        /\ (forall o, o <> obj -> heap cx' !! o = heap cx !! o)
        /\ (forall q, q <> p -> crcs cx' !! q = crcs cx !! q)
        /\ pending cx' = pending cx).
Proof.
  split.
  - intros Hc. unfold constructor, isConstructing. rewrite Hc. split; reflexivity.
  - intros Hc Hm.
    exists (fresh (dom (heap cx))), (fresh (dom (crcs cx))), (constructed crc32 cx).
    split; [apply constructor_run; assumption|].
    split; [apply fresh_heap|]. split; [apply fresh_crcs|].
    unfold instance_object. rewrite constructed_private.
    unfold constructed; cbn. rewrite !lookup_insert_eq.
    repeat split; eauto.
    + intros o Ho. rewrite lookup_insert_ne; congruence.
    + intros q Hq. rewrite lookup_insert_ne; congruence.
Qed.

(** C4: reading [checksum] on a newly constructed instance, before any
    [update], returns [0]: the constructor sets the accumulator to zlib's
    initial value, which is [0], and the read returns the accumulator and
    leaves the whole state as it was. *)
Theorem C4_fresh_checksum_is_identity crc32 cx args :
  crc32 0 None 0 = 0 ->
  constructing args = true ->
  (0 < mem_free cx)%nat ->
  exists obj p cx',
    constructor crc32 args cx = Some (true, set_rval (ObjectValue obj) args, cx')
    /\ private_of cx' obj = Some (Some p)
    /\ accumulator cx' p = Some 0
    /\ (forall read, thisv read = ObjectValue obj ->
          getChecksum read cx' = Some (true, set_rval (NumberValue 0) read, cx'))
    /\ checksum_of_chunks crc32 [] cx = Some (Some (NumberValue 0), cx').
Proof.
  intros Hinit Hc Hm.
  exists (fresh (dom (heap cx))), (fresh (dom (crcs cx))), (constructed crc32 cx).
  pose proof (constructed_private crc32 cx) as Hpriv.
  pose proof (constructed_accumulator crc32 cx) as Hacc. rewrite Hinit in Hacc.
  assert (Hread : forall read, thisv read = ObjectValue (fresh (dom (heap cx))) ->
            getChecksum read (constructed crc32 cx) =
              Some (true, set_rval (NumberValue 0) read, constructed crc32 cx)).
  { intros read Hthis. apply (getChecksum_run _ _ _ _ _ Hpriv Hacc Hthis). }
  split; [apply constructor_run; assumption|].
  repeat split; try assumption.
  unfold checksum_of_chunks.
  rewrite (bind_run _ _ _ _ _ (js_new_Crc_run crc32 cx Hm)). cbn [js_updates].
  unfold bind at 1. cbn.
  apply (js_checksum_run _ _ _ _ Hpriv Hacc).
Qed.

(** ** Folding bytes into the accumulator *)

Lemma js_update_run crc32 cx obj p c bytes :
  private_of cx obj = Some (Some p) ->
  accumulator cx p = Some c ->
  (0 < mem_free cx)%nat ->
  Z.of_nat (length bytes) <= Cxx.UINT_MAX ->
  js_update crc32 obj bytes cx = Some (true, updated crc32 p c bytes cx)
  /\ private_of (updated crc32 p c bytes cx) obj = Some (Some p)
  /\ accumulator (updated crc32 p c bytes cx) p =
       Some (crc32 c (Some bytes) (Z.of_nat (length bytes))).
Proof.
  intros Hobj Hacc Hm Hlen.
  destruct (mem_free cx) as [|n] eqn:En; [lia|].
  set (a := fresh (dom (heap cx))).
  set (cx1 := set_heap <[a := mkObject (Uint8ArrayObject bytes) []]> (set_mem_free n cx)).
  assert (Hne : a <> obj).
  { intros Heq. apply private_of_is_Some in Hobj.
    rewrite <- Heq in Hobj. unfold a in Hobj.
    rewrite fresh_heap in Hobj. destruct Hobj; discriminate. }
  assert (Hnew : new_Uint8Array bytes cx = Some (Some a, cx1)).
  { unfold new_Uint8Array, new_object, allocate. run_monad. rewrite En. reflexivity. }
  assert (Hobj1 : private_of cx1 obj = Some (Some p)).
  { unfold private_of, cx1 in *. cbn. rewrite lookup_insert_ne; assumption. }
  assert (Hacc1 : accumulator cx1 p = Some c) by exact Hacc.
  assert (Hupd : update crc32 (mkCallArgs false (ObjectValue obj) [ObjectValue a] UndefinedValue)
                   cx1 =
                 Some (true,
                       set_rval UndefinedValue
                         (mkCallArgs false (ObjectValue obj) [ObjectValue a] UndefinedValue),
                       updated crc32 p c bytes cx)).
  { rewrite (update_run crc32 cx1 obj p c
               (mkCallArgs false (ObjectValue obj) [ObjectValue a] UndefinedValue)
               Hobj1 Hacc1 eq_refl).
    unfold update_result, uint8_data. cbn [argv].
    unfold cx1 at 1. cbn [heap set_heap]. rewrite lookup_insert_eq.
    destruct (Z.of_nat (length bytes) >? Cxx.UINT_MAX) eqn:E.
    { apply Z.gtb_gt in E. lia. }
    unfold updated, cx1, set_crcs, set_heap, set_mem_free. cbn. rewrite En. reflexivity. }
  split; [|split].
  - unfold js_update. rewrite (bind_run _ _ _ _ _ Hnew). cbn.
    rewrite (bind_run _ _ _ _ _ Hupd). reflexivity.
  - unfold private_of, updated in *. cbn. fold a. rewrite lookup_insert_ne; assumption.
  - unfold accumulator, updated. cbn. rewrite lookup_insert_eq. reflexivity.
Qed.

Lemma js_updates_run crc32 obj p chunks :
  forall cx c,
    private_of cx obj = Some (Some p) ->
    accumulator cx p = Some c ->
    (length chunks <= mem_free cx)%nat ->
    Forall (fun bytes => Z.of_nat (length bytes) <= Cxx.UINT_MAX) chunks ->
    exists cx',
      js_updates crc32 obj chunks cx = Some (true, cx')
      /\ private_of cx' obj = Some (Some p)
      /\ accumulator cx' p = Some (fold_chunks crc32 c chunks).
Proof.
  induction chunks as [|bytes rest IH]; intros cx c Hobj Hacc Hm Hlen.
  - exists cx. repeat split; assumption.
  - cbn [length] in Hm. inversion Hlen as [|? ? Hb Hrest]; subst.
    destruct (js_update_run crc32 cx obj p c bytes Hobj Hacc ltac:(lia) Hb)
      as (Hrun & Hobj' & Hacc').
    destruct (IH _ _ Hobj' Hacc') as (cx' & Hruns & Hobj'' & Hacc'').
    { unfold updated. cbn. lia. }
    { assumption. }
    exists cx'. split; [|split; assumption].
    cbn [js_updates]. rewrite (bind_run _ _ _ _ _ Hrun). exact Hruns.
Qed.

Lemma checksum_of_chunks_run crc32 cx chunks :
  (length chunks < mem_free cx)%nat ->
  Forall (fun bytes => Z.of_nat (length bytes) <= Cxx.UINT_MAX) chunks ->
  exists cx',
    checksum_of_chunks crc32 chunks cx =
      Some (Some (NumberValue (Cxx.to_uint32_t (fold_chunks crc32 (crc32 0 None 0) chunks))),
            cx').
Proof.
  intros Hm Hlen. unfold checksum_of_chunks.
  rewrite (bind_run _ _ _ _ _ (js_new_Crc_run crc32 cx ltac:(lia))).
  destruct (js_updates_run crc32 _ _ chunks _ _
              (constructed_private crc32 cx) (constructed_accumulator crc32 cx))
    as (cx' & Hruns & Hobj & Hacc).
  { unfold constructed. cbn. lia. }
  { assumption. }
  exists cx'. rewrite (bind_run _ _ _ _ _ Hruns).
  apply (js_checksum_run _ _ _ _ Hobj Hacc).
Qed.

Lemma js_update_rejected crc32 cx obj p c bytes :
  private_of cx obj = Some (Some p) ->
  accumulator cx p = Some c ->
  mem_free cx = 0%nat \/ Z.of_nat (length bytes) > Cxx.UINT_MAX ->
  exists cx', js_update crc32 obj bytes cx = Some (false, cx').
Proof.
  intros Hobj Hacc Hbad.
  destruct (mem_free cx) as [|n] eqn:En.
  { eexists. unfold js_update, new_Uint8Array, new_object, allocate, JS_ReportOutOfMemory.
    run_monad. rewrite En. reflexivity. }
  destruct Hbad as [Hbad|Hlen]; [discriminate|].
  set (a := fresh (dom (heap cx))).
  set (cx1 := set_heap <[a := mkObject (Uint8ArrayObject bytes) []]> (set_mem_free n cx)).
  assert (Hnew : new_Uint8Array bytes cx = Some (Some a, cx1)).
  { unfold new_Uint8Array, new_object, allocate. run_monad. rewrite En. reflexivity. }
  assert (Hobj1 : private_of cx1 obj = Some (Some p)).
  { unfold private_of, cx1 in *. cbn.
    rewrite lookup_insert_ne; [assumption|].
    apply fresh_heap_ne. destruct (heap cx !! obj); [eauto|discriminate]. }
  assert (Hupd : update crc32
                   (mkCallArgs false (ObjectValue obj) [ObjectValue a] UndefinedValue) cx1 =
                 Some (false,
                       mkCallArgs false (ObjectValue obj) [ObjectValue a] UndefinedValue,
                       set_pending (Some (ErrorASCII "array has too many bytes")) cx1)).
  { rewrite (update_run crc32 cx1 obj p c
               (mkCallArgs false (ObjectValue obj) [ObjectValue a] UndefinedValue)
               Hobj1 Hacc eq_refl).
    unfold update_result, uint8_data. cbn [argv].
    unfold cx1 at 1. cbn [heap set_heap]. rewrite lookup_insert_eq.
    apply Z.gtb_gt in Hlen. rewrite Hlen. reflexivity. }
  eexists. unfold js_update. rewrite (bind_run _ _ _ _ _ Hnew). cbn.
  rewrite (bind_run _ _ _ _ _ Hupd). reflexivity.
Qed.

Lemma js_updates_accepted crc32 obj p chunks :
  forall cx c cx',
    private_of cx obj = Some (Some p) ->
    accumulator cx p = Some c ->
    js_updates crc32 obj chunks cx = Some (true, cx') ->
    (length chunks <= mem_free cx)%nat
    /\ Forall (fun bytes => Z.of_nat (length bytes) <= Cxx.UINT_MAX) chunks.
Proof.
  induction chunks as [|bytes rest IH]; intros cx c cx' Hobj Hacc Hrun.
  - split; [cbn; lia|constructor].
  - cbn [js_updates] in Hrun.
    destruct (decide (mem_free cx = 0%nat \/ Z.of_nat (length bytes) > Cxx.UINT_MAX))
      as [Hbad|Hgood].
    + destruct (js_update_rejected crc32 cx obj p c bytes Hobj Hacc Hbad) as (cx1 & Hrej).
      rewrite (bind_run _ _ _ _ _ Hrej) in Hrun. discriminate.
    + assert (Hm : (0 < mem_free cx)%nat) by lia.
      assert (Hlen : Z.of_nat (length bytes) <= Cxx.UINT_MAX) by lia.
      destruct (js_update_run crc32 cx obj p c bytes Hobj Hacc Hm Hlen)
        as (Hone & Hobj' & Hacc').
      rewrite (bind_run _ _ _ _ _ Hone) in Hrun.
      destruct (IH _ _ _ Hobj' Hacc' Hrun) as (Hmem & Hrest).
      unfold updated in Hmem. cbn in Hmem.
      split; [cbn; lia|constructor; assumption].
Qed.

Lemma checksum_of_chunks_yields crc32 cx chunks v cx' :
  checksum_of_chunks crc32 chunks cx = Some (Some v, cx') ->
  (length chunks < mem_free cx)%nat
  /\ Forall (fun bytes => Z.of_nat (length bytes) <= Cxx.UINT_MAX) chunks.
Proof.
  unfold checksum_of_chunks. intros Hrun.
  destruct (mem_free cx) as [|n] eqn:En.
  { rewrite (bind_run _ _ _ _ _ (js_new_Crc_out_of_memory crc32 cx En)) in Hrun.
    discriminate. }
  rewrite (bind_run _ _ _ _ _ (js_new_Crc_run crc32 cx ltac:(lia))) in Hrun.
  unfold bind in Hrun.
  destruct (js_updates crc32 (fresh (dom (heap cx))) chunks (constructed crc32 cx))
    as [[[|] cx1]|] eqn:Hups; try discriminate.
  destruct (js_updates_accepted crc32 _ _ chunks _ _ _
              (constructed_private crc32 cx) (constructed_accumulator crc32 cx) Hups)
    as (Hmem & Hall).
  unfold constructed in Hmem. cbn in Hmem. rewrite En in Hmem. cbn in Hmem.
  split; [lia|assumption].
Qed.

(** C2: with a checksum function that composes over concatenation, a new
    instance updated with [b1] and then with [b2] and a new instance updated
    once with [b1 ++ b2] read the same checksum: whenever both scripts yield
    a value, the two values are equal; and both do yield one when the
    concatenation is an array [update] accepts (at most [UINT_MAX] bytes)
    and the engine has memory for the instance and the arrays. *)
Theorem C2_incremental_equals_one_shot crc32 cx b1 b2 :
  (forall c x y,
     crc32 (crc32 c (Some x) (Z.of_nat (length x))) (Some y) (Z.of_nat (length y)) =
     crc32 c (Some (x ++ y)) (Z.of_nat (length (x ++ y)))) ->
  (forall v1 v2 cx1 cx2,
     checksum_of_chunks crc32 [b1; b2] cx = Some (Some v1, cx1) ->
     checksum_of_chunks crc32 [b1 ++ b2] cx = Some (Some v2, cx2) ->
     v1 = v2)
  /\ (Z.of_nat (length (b1 ++ b2)) <= Cxx.UINT_MAX ->
      (3 <= mem_free cx)%nat ->
      exists v cx1 cx2,
        checksum_of_chunks crc32 [b1; b2] cx = Some (Some (NumberValue v), cx1)
        /\ checksum_of_chunks crc32 [b1 ++ b2] cx = Some (Some (NumberValue v), cx2)).
Proof.
  intros Hcomp.
  assert (Hfold : fold_chunks crc32 (crc32 0 None 0) [b1; b2] =
                  fold_chunks crc32 (crc32 0 None 0) [b1 ++ b2]).
  { unfold fold_chunks. cbn [fold_left]. apply Hcomp. }
  split.
  - intros v1 v2 cx1 cx2 H1 H2.
    destruct (checksum_of_chunks_yields _ _ _ _ _ H1) as (Hm1 & Hs1).
    destruct (checksum_of_chunks_yields _ _ _ _ _ H2) as (Hm2 & Hs2).
    destruct (checksum_of_chunks_run crc32 cx [b1; b2] Hm1 Hs1) as (cx1' & H1').
    destruct (checksum_of_chunks_run crc32 cx [b1 ++ b2] Hm2 Hs2) as (cx2' & H2').
    rewrite H1 in H1'. rewrite H2 in H2'.
    rewrite Hfold in H1'. congruence.
  - intros Hlen Hm.
    rewrite length_app, Nat2Z.inj_add in Hlen.
    destruct (checksum_of_chunks_run crc32 cx [b1; b2]) as (cx1 & H1).
    { cbn. lia. }
    { repeat constructor; lia. }
    destruct (checksum_of_chunks_run crc32 cx [b1 ++ b2]) as (cx2 & H2).
    { cbn. lia. }
    { repeat constructor. rewrite length_app, Nat2Z.inj_add. lia. }
    eexists _, cx1, cx2. split; [exact H1|].
    rewrite H2, Hfold. reflexivity.
Qed.

(** ** The reference CRC-32 *)

Lemma zlib_crc32_initial : Zlib.crc32 0 None 0 = 0.
Proof. reflexivity. Qed.

Lemma zlib_crc32_app c x y :
  Zlib.crc32 (Zlib.crc32 c (Some x) (Z.of_nat (length x))) (Some y) (Z.of_nat (length y)) =
  Zlib.crc32 c (Some (x ++ y)) (Z.of_nat (length (x ++ y))).
Proof.
  unfold Zlib.crc32. rewrite !Nat2Z.id, !firstn_all.
  rewrite lxor_involutive, fold_left_app. reflexivity.
Qed.

Example zlib_crc32_test_vector :
  Zlib.crc32 0 (Some (bytes_of [1; 2; 3; 4; 5])) 5 = 0x470B99F4.
Proof. vm_compute. reflexivity. Qed.

(** ** Lazy resolution *)

Lemma resolve_update_run cx obj props resolved :
  heap cx !! obj = Some (mkObject (CrcObject None) props) ->
  (0 < mem_free cx)%nat ->
  resolve obj (JSID_STRING "update") resolved cx =
    Some (true, true,
          with_member cx obj props (JSID_STRING "update")
            (mkObject (FunctionObject Native_update 1 (JSID_STRING "update")) [])
            (DataProperty (ObjectValue (fresh (dom (heap cx)))) JSPROP_ENUMERATE)).
Proof.
  intros Hobj Hm. destruct (mem_free cx) as [|n] eqn:En; [lia|].
  unfold resolve, isPrototype, getPriv, JS_GetPrivate.
  run_monad. rewrite Hobj. run_monad.
  change (JS_FlatStringEqualsAscii "update" "update") with true. cbn match.
  unfold JS_DefineFunctionById, new_native_function, new_object, allocate, define_property.
  run_monad. rewrite En. run_monad.
  rewrite lookup_insert_ne, Hobj by (apply fresh_heap_ne; eauto). run_monad.
  unfold with_member, set_heap, set_mem_free. cbn. rewrite En. reflexivity.
Qed.

Lemma resolve_checksum_run cx obj props resolved :
  heap cx !! obj = Some (mkObject (CrcObject None) props) ->
  (0 < mem_free cx)%nat ->
  resolve obj (JSID_STRING "checksum") resolved cx =
    Some (true, true,
          with_member cx obj props (JSID_STRING "checksum")
            (mkObject (FunctionObject Native_getChecksum 0 (JSID_STRING "checksum")) [])
            (AccessorProperty (Some (fresh (dom (heap cx)))) None JSPROP_ENUMERATE)).
Proof.
  intros Hobj Hm. destruct (mem_free cx) as [|n] eqn:En; [lia|].
  unfold resolve, isPrototype, getPriv, JS_GetPrivate.
  run_monad. rewrite Hobj. run_monad.
  change (JS_FlatStringEqualsAscii "checksum" "update") with false.
  change (JS_FlatStringEqualsAscii "checksum" "checksum") with true. cbn match.
  unfold JS_DefinePropertyById, new_accessor, new_native_function, new_object, allocate,
    define_property.
  run_monad. rewrite En. run_monad.
  rewrite lookup_insert_ne, Hobj by (apply fresh_heap_ne; eauto). run_monad.
  unfold with_member, set_heap, set_mem_free. cbn. rewrite En. reflexivity.
Qed.

Lemma with_member_facts cx obj props id fn prop :
  heap cx !! obj = Some (mkObject (CrcObject None) props) ->
  let cx' := with_member cx obj props id fn prop in
  let f := fresh (dom (heap cx)) in
  heap cx !! f = None
  /\ member cx' obj id = Some prop
  /\ heap cx' !! f = Some fn
  /\ prototype_object cx' obj
  /\ (forall id', id' <> id -> member cx' obj id' = member cx obj id')
  /\ (forall o, o <> obj -> o <> f -> heap cx' !! o = heap cx !! o)
  /\ crcs cx' = crcs cx
  /\ pending cx' = pending cx.
Proof.
  intros Hobj cx' f.
  assert (Hne : f <> obj) by (apply fresh_heap_ne; eauto).
  unfold member, prototype_object, private_of, cx', with_member. cbn. fold f.
  rewrite lookup_insert_eq, Hobj. cbn.
  rewrite lookup_insert_ne, lookup_insert_eq by congruence.
  repeat split.
  - apply fresh_heap.
  - apply get_put_property_eq.
  - intros id' Hid. apply get_put_property_ne, Hid.
  - intros o Ho Hf. rewrite !lookup_insert_ne by congruence. reflexivity.
Qed.

(** C6: [resolve] on an object of the class that has state attached (not
    the prototype), or for a key that is not a string, or for a name other
    than "update" and "checksum", succeeds with [*resolved = false] and
    leaves the whole state, so the members of every object, as it was. *)
Theorem C6_resolve_not_resolved cx obj priv id resolved :
  private_of cx obj = Some priv ->
  (priv <> None
   \/ JSID_IS_STRING id = false
   \/ exists name, id = JSID_STRING name /\ name <> "update" /\ name <> "checksum") ->
  resolve obj id resolved cx = Some (true, false, cx).
Proof.
  intros Hobj Hcase. unfold resolve.
  rewrite (bind_run _ _ _ _ _ (isPrototype_run _ _ _ Hobj)).
  destruct priv as [p|]; [reflexivity|].
  rewrite bool_decide_eq_true_2 by reflexivity. cbn [negb].
  destruct Hcase as [Hp | [Hid | (name & -> & Hu & Hc)]].
  - congruence.
  - rewrite Hid. reflexivity.
  - cbn. unfold bind at 1. cbn. unfold JS_FlatStringEqualsAscii.
    rewrite !bool_decide_eq_false_2 by assumption. reflexivity.
Qed.

(** C7: [resolve] on the prototype, the engine having memory for a function
    object.  For "update" it defines, on the prototype and under that name,
    an enumerable property whose value is a new function object calling
    [Crc::update] with arity 1, and sets [*resolved = true].  For
    "checksum" it defines an enumerable accessor property whose getter is a
    new function object calling [Crc::getChecksum] and which has no setter,
    and sets [*resolved = true].  The other members of the prototype, the
    other objects and the states of the instances are as before. *)
Theorem C7_resolve_defines_member cx obj resolved :
  prototype_object cx obj ->
  (0 < mem_free cx)%nat ->
  (exists f cx',
     resolve obj (JSID_STRING "update") resolved cx = Some (true, true, cx')
     /\ heap cx !! f = None
     /\ member cx' obj (JSID_STRING "update") =
          Some (DataProperty (ObjectValue f) JSPROP_ENUMERATE)
     /\ heap cx' !! f =
          Some (mkObject (FunctionObject Native_update 1 (JSID_STRING "update")) [])
     /\ prototype_object cx' obj
     /\ (forall id', id' <> JSID_STRING "update" -> member cx' obj id' = member cx obj id')
     /\ (forall o, o <> obj -> o <> f -> heap cx' !! o = heap cx !! o)
     /\ crcs cx' = crcs cx
     /\ pending cx' = pending cx)
  /\ (exists g cx',
        resolve obj (JSID_STRING "checksum") resolved cx = Some (true, true, cx')
        /\ heap cx !! g = None
        /\ member cx' obj (JSID_STRING "checksum") =
             Some (AccessorProperty (Some g) None JSPROP_ENUMERATE)
        /\ heap cx' !! g =
             Some (mkObject (FunctionObject Native_getChecksum 0 (JSID_STRING "checksum")) [])
        /\ prototype_object cx' obj
        /\ (forall id', id' <> JSID_STRING "checksum" ->
              member cx' obj id' = member cx obj id')
        /\ (forall o, o <> obj -> o <> g -> heap cx' !! o = heap cx !! o)
        /\ crcs cx' = crcs cx
        /\ pending cx' = pending cx).
Proof.
  intros [props Hobj]%private_of_heap Hm. split.
  - eexists _, _. split; [apply (resolve_update_run _ _ _ _ Hobj Hm)|].
    apply (with_member_facts _ _ _ _ _ _ Hobj).
  - eexists _, _. split; [apply (resolve_checksum_run _ _ _ _ Hobj Hm)|].
    apply (with_member_facts _ _ _ _ _ _ Hobj).
Qed.

(** ** Enumeration *)

Lemma newEnumerate_prototype cx obj properties enumerableOnly :
  prototype_object cx obj ->
  (2 <= mem_free cx)%nat ->
  newEnumerate obj properties enumerableOnly cx =
    Some (true, properties ++ resolvable_names, set_mem_free (mem_free cx - 2) cx).
Proof.
  intros Hproto Hm.
  destruct (mem_free cx) as [|[|n]] eqn:En; [lia|lia|].
  unfold newEnumerate.
  rewrite (bind_run _ _ _ _ _ (isPrototype_run _ _ _ Hproto)).
  rewrite bool_decide_eq_true_2 by reflexivity. cbn [negb].
  unfold append, allocate. run_monad. rewrite En. run_monad.
  rewrite <- app_assoc. cbn. rewrite Nat.sub_0_r. reflexivity.
Qed.

Lemma newEnumerate_instance cx obj p properties enumerableOnly :
  private_of cx obj = Some (Some p) ->
  newEnumerate obj properties enumerableOnly cx = Some (true, properties, cx).
Proof.
  intros Hobj. unfold newEnumerate.
  rewrite (bind_run _ _ _ _ _ (isPrototype_run _ _ _ Hobj)). reflexivity.
Qed.

(** C8: on the prototype, the engine having memory for the two entries, the
    enumeration hook appends "update" and "checksum", in this order and once
    each, to the vector it is given, and touches nothing but the memory
    count: a second call, or a call after a member was resolved, reports the
    same two names.  On an object with state attached it appends nothing and
    changes nothing. *)
Theorem C8_enumerate_names cx obj :
  (prototype_object cx obj ->
     (forall properties enumerableOnly, (2 <= mem_free cx)%nat ->
        exists cx',
          newEnumerate obj properties enumerableOnly cx =
            Some (true, properties ++ [JSID_STRING "update"; JSID_STRING "checksum"], cx')
          /\ heap cx' = heap cx /\ crcs cx' = crcs cx /\ pending cx' = pending cx)
     /\ (forall e1 e2, (4 <= mem_free cx)%nat ->
           exists cx1 cx2,
             newEnumerate obj [] e1 cx = Some (true, resolvable_names, cx1)
             /\ newEnumerate obj [] e2 cx1 = Some (true, resolvable_names, cx2))
     /\ (forall name resolved e, (3 <= mem_free cx)%nat ->
           name = "update" \/ name = "checksum" ->
           exists cx1 cx2,
             resolve obj (JSID_STRING name) resolved cx = Some (true, true, cx1)
             /\ newEnumerate obj [] e cx1 = Some (true, resolvable_names, cx2)))
  /\ NoDup resolvable_names
  /\ (forall p properties enumerableOnly,
        private_of cx obj = Some (Some p) ->
        newEnumerate obj properties enumerableOnly cx = Some (true, properties, cx)).
Proof.
  split; [|split].
  - intros Hproto. split; [|split].
    + intros properties e Hm. eexists. split.
      * apply (newEnumerate_prototype _ _ _ _ Hproto Hm).
      * repeat split.
    + intros e1 e2 Hm. eexists _, _. split.
      * apply (newEnumerate_prototype _ _ [] _ Hproto). lia.
      * apply (newEnumerate_prototype _ _ []); [exact Hproto|cbn; lia].
    + intros name resolved e Hm Hname.
      destruct (private_of_heap _ _ _ Hproto) as [props Hobj].
      destruct Hname as [-> | ->].
      * eexists _, _. split; [apply (resolve_update_run _ _ _ _ Hobj); lia|].
        apply (newEnumerate_prototype _ _ []).
        -- apply (with_member_facts _ _ _ _ _ _ Hobj).
        -- unfold with_member. cbn. lia.
      * eexists _, _. split; [apply (resolve_checksum_run _ _ _ _ Hobj); lia|].
        apply (newEnumerate_prototype _ _ []).
        -- apply (with_member_facts _ _ _ _ _ _ Hobj).
        -- unfold with_member. cbn. lia.
  - unfold resolvable_names. apply NoDup_cons. split.
    + intros [H|H]%elem_of_cons; [discriminate|]. apply elem_of_nil in H. exact H.
    + apply NoDup_cons. split; [apply not_elem_of_nil|apply NoDup_nil_2].
  - intros p properties e Hobj. apply (newEnumerate_instance _ _ _ _ _ Hobj).
Qed.

(** ** Finalization *)

Lemma finalize_prototype cx obj :
  prototype_object cx obj -> finalize obj cx = Some (tt, cx).
Proof.
  intros Hproto. unfold finalize.
  rewrite (bind_run _ _ _ _ _ (getPriv_run _ _ _ Hproto)). reflexivity.
Qed.

Lemma finalize_instance cx obj props p :
  heap cx !! obj = Some (mkObject (CrcObject (Some p)) props) ->
  is_Some (crcs cx !! p) ->
  finalize obj cx = Some (tt, finalized cx obj props p).
Proof.
  intros Hobj [c Hp]. unfold finalize, getPriv, JS_GetPrivate, Cxx.delete, JS_SetPrivate.
  run_monad. rewrite Hobj. run_monad. rewrite Hp. run_monad. rewrite Hobj. reflexivity.
Qed.

Lemma finalize_times_prototype n cx obj :
  prototype_object cx obj -> finalize_times n obj cx = Some (tt, cx).
Proof.
  intros Hproto. induction n as [|n IH]; [reflexivity|].
  cbn [finalize_times]. rewrite (bind_run _ _ _ _ _ (finalize_prototype _ _ Hproto)).
  exact IH.
Qed.

(** C9: the finalizer does nothing on an object without attached state.  On
    an instance it deletes the state once and clears the private slot, so
    the object then has no attached state and every further run of the
    finalizer does nothing: however often it runs, the state is deleted
    exactly once. *)
Theorem C9_finalize_releases_once cx obj :
  (prototype_object cx obj -> finalize obj cx = Some (tt, cx))
  /\ (forall p, instance_object cx obj p ->
        exists cx',
          finalize obj cx = Some (tt, cx')
          /\ crcs cx' = base.delete p (crcs cx)
          /\ crcs cx' !! p = None
          /\ deleted cx' = p :: deleted cx
          /\ prototype_object cx' obj
          /\ finalize obj cx' = Some (tt, cx')
          /\ forall n, finalize_times (S n) obj cx = Some (tt, cx')).
Proof.
  split; [apply finalize_prototype|].
  intros p [Hpriv Hlive].
  destruct (private_of_heap _ _ _ Hpriv) as [props Hobj].
  pose proof (finalize_instance _ _ _ _ Hobj Hlive) as Hrun.
  assert (Hproto : prototype_object (finalized cx obj props p) obj).
  { unfold prototype_object, private_of, finalized. cbn.
    rewrite lookup_insert_eq. reflexivity. }
  exists (finalized cx obj props p).
  split; [exact Hrun|]. split; [reflexivity|].
  split; [apply lookup_delete_eq|]. split; [reflexivity|].
  split; [exact Hproto|]. split; [apply finalize_prototype, Hproto|].
  intros n. cbn [finalize_times]. rewrite (bind_run _ _ _ _ _ Hrun).
  apply finalize_times_prototype, Hproto.
Qed.

(** ** Concrete runs *)

Lemma proto_state_prototype : prototype_object proto_state 2.
Proof. vm_compute. reflexivity. Qed.

Lemma instance_state_private : private_of instance_state 4 = Some (Some 1%positive).
Proof. vm_compute. reflexivity. Qed.

Lemma array_state_private : private_of array_state 4 = Some (Some 1%positive).
Proof. vm_compute. reflexivity. Qed.

Lemma array_state_data :
  uint8_data array_state (ObjectValue 5) = Some (bytes_of [1; 2; 3; 4; 5]).
Proof. vm_compute. reflexivity. Qed.

Lemma C1_witness :
  prototype_object proto_state 2
  /\ update Zlib.crc32 (call_on 2 [ObjectValue 5]) proto_state =
       Some (false, call_on 2 [ObjectValue 5],
             set_pending (Some (ErrorASCII "can't call update() on Crc.prototype"))
                         proto_state).
Proof.
  split; [vm_compute; reflexivity|].
  apply (C1_prototype_usage_error Zlib.crc32 proto_state 2 (call_on 2 [ObjectValue 5])).
  - vm_compute. reflexivity.
  - reflexivity.
Defined.

Lemma C2_witness :
  exists v cx1 cx2,
    checksum_of_chunks Zlib.crc32 [bytes_of [1; 2]; bytes_of [3; 4; 5]] proto_state =
      Some (Some (NumberValue v), cx1)
    /\ checksum_of_chunks Zlib.crc32 [bytes_of [1; 2] ++ bytes_of [3; 4; 5]] proto_state =
         Some (Some (NumberValue v), cx2).
Proof.
  apply (proj2 (C2_incremental_equals_one_shot Zlib.crc32 proto_state
                  (bytes_of [1; 2]) (bytes_of [3; 4; 5]) zlib_crc32_app)).
  - vm_compute. discriminate.
  - vm_compute. lia.
Defined.

(** C3, counterexample: with two arguments, the first a [Uint8Array],
    [update] returns [true]; the second argument is ignored. *)
Lemma C3_extra_argument_accepted :
  private_of array_state 4 = Some (Some 1%positive)
  /\ accumulator array_state 1 = Some 0
  /\ length (argv (call_on 4 [ObjectValue 5; NumberValue 42])) = 2%nat
  /\ (exists cx',
        update Zlib.crc32 (call_on 4 [ObjectValue 5; NumberValue 42]) array_state =
          Some (true, set_rval UndefinedValue (call_on 4 [ObjectValue 5; NumberValue 42]), cx')
        /\ pending cx' = None
        /\ accumulator cx' 1 = Some 0x470B99F4)
  /\ ~ update_requires_exactly_one_argument Zlib.crc32.
Proof.
  assert (Hrun : exists cx',
            update Zlib.crc32 (call_on 4 [ObjectValue 5; NumberValue 42]) array_state =
              Some (true, set_rval UndefinedValue (call_on 4 [ObjectValue 5; NumberValue 42]),
                    cx')
            /\ pending cx' = None
            /\ accumulator cx' 1 = Some 0x470B99F4).
  { eexists. split; [vm_compute; reflexivity|]. split; vm_compute; reflexivity. }
  split; [vm_compute; reflexivity|]. split; [vm_compute; reflexivity|].
  split; [reflexivity|]. split; [exact Hrun|].
  intros Hclaim.
  destruct (Hclaim array_state 4%positive 1%positive 0
              (call_on 4 [ObjectValue 5; NumberValue 42]))
    as (args' & cx' & Hfail).
  - vm_compute. reflexivity.
  - vm_compute. reflexivity.
  - reflexivity.
  - cbn. lia.
  - destruct Hrun as (cx'' & Hok & _). rewrite Hok in Hfail. discriminate.
Qed.

Lemma C3_witness :
  exists cx',
    update Zlib.crc32 (call_on 4 [ObjectValue 5]) array_state =
      Some (true, set_rval UndefinedValue (call_on 4 [ObjectValue 5]), cx')
    /\ pending cx' = pending array_state
    /\ accumulator cx' 1 =
         Some (Zlib.crc32 0 (Some (bytes_of [1; 2; 3; 4; 5]))
                          (Z.of_nat (length (bytes_of [1; 2; 3; 4; 5])))).
Proof.
  refine (proj2 (proj2 (proj2
            (C3_update_argument_errors Zlib.crc32 array_state 4 1 0 (call_on 4 [ObjectValue 5])
               _ _ _))) (ObjectValue 5) (bytes_of [1; 2; 3; 4; 5]) _ _ _).
  - vm_compute. reflexivity.
  - vm_compute. reflexivity.
  - reflexivity.
  - reflexivity.
  - vm_compute. reflexivity.
  - vm_compute. discriminate.
Defined.

Lemma C4_witness :
  exists obj p cx',
    constructor Zlib.crc32 new_call proto_state =
      Some (true, set_rval (ObjectValue obj) new_call, cx')
    /\ private_of cx' obj = Some (Some p)
    /\ accumulator cx' p = Some 0
    /\ (forall read, thisv read = ObjectValue obj ->
          getChecksum read cx' = Some (true, set_rval (NumberValue 0) read, cx'))
    /\ checksum_of_chunks Zlib.crc32 [] proto_state = Some (Some (NumberValue 0), cx').
Proof.
  apply (C4_fresh_checksum_is_identity Zlib.crc32 proto_state new_call).
  - reflexivity.
  - reflexivity.
  - vm_compute. lia.
Defined.

Lemma C5_witness :
  constructor Zlib.crc32 (call_on 1 []) proto_state =
    Some (false, call_on 1 [],
          set_pending (Some (ErrorNumber JSMSG_CANT_CALL_CLASS_CONSTRUCTOR [])) proto_state)
  /\ exists obj p cx',
       constructor Zlib.crc32 new_call proto_state =
         Some (true, set_rval (ObjectValue obj) new_call, cx')
       /\ heap proto_state !! obj = None
       /\ crcs proto_state !! p = None
       /\ instance_object cx' obj p.
Proof.
  split.
  - apply (proj1 (C5_constructor Zlib.crc32 proto_state (call_on 1 []))). reflexivity.
  - destruct (proj2 (C5_constructor Zlib.crc32 proto_state new_call))
      as (obj & p & cx' & Hrun & Hobj & Hp & _ & _ & Hinst & _).
    + reflexivity.
    + vm_compute. lia.
    + exists obj, p, cx'. split; [exact Hrun|]. split; [exact Hobj|].
      split; [exact Hp|exact Hinst].
Defined.

Lemma C6_witness :
  resolve 4 (JSID_STRING "update") false instance_state = Some (true, false, instance_state)
  /\ resolve 2 (JSID_INT 0) true proto_state = Some (true, false, proto_state)
  /\ resolve 2 (JSID_STRING "digest") true proto_state = Some (true, false, proto_state).
Proof.
  split; [|split].
  - apply (C6_resolve_not_resolved instance_state 4 (Some 1%positive)).
    + vm_compute. reflexivity.
    + left. discriminate.
  - apply (C6_resolve_not_resolved proto_state 2 None).
    + vm_compute. reflexivity.
    + right. left. reflexivity.
  - apply (C6_resolve_not_resolved proto_state 2 None).
    + vm_compute. reflexivity.
    + right. right. exists "digest"%string. repeat split; discriminate.
Defined.

Lemma C7_witness :
  exists f cx',
    resolve 2 (JSID_STRING "update") false proto_state = Some (true, true, cx')
    /\ member cx' 2 (JSID_STRING "update") =
         Some (DataProperty (ObjectValue f) JSPROP_ENUMERATE)
    /\ heap cx' !! f =
         Some (mkObject (FunctionObject Native_update 1 (JSID_STRING "update")) []).
Proof.
  destruct (proj1 (C7_resolve_defines_member proto_state 2 false
                     ltac:(vm_compute; reflexivity) ltac:(vm_compute; lia)))
    as (f & cx' & Hrun & _ & Hmember & Hfun & _).
  exists f, cx'. repeat split; assumption.
Defined.

Lemma C8_witness :
  (exists cx',
     newEnumerate 2 [] true proto_state =
       Some (true, [JSID_STRING "update"; JSID_STRING "checksum"], cx'))
  /\ newEnumerate 4 [] true instance_state = Some (true, [], instance_state).
Proof.
  split.
  - destruct (proj1 (proj1 (C8_enumerate_names proto_state 2)
                       ltac:(vm_compute; reflexivity)) [] true ltac:(vm_compute; lia))
      as (cx' & Hrun & _).
    exists cx'. exact Hrun.
  - apply (proj2 (proj2 (C8_enumerate_names instance_state 4)) 1%positive).
    vm_compute. reflexivity.
Defined.

Lemma C9_witness :
  finalize 2 proto_state = Some (tt, proto_state)
  /\ exists cx',
       finalize 4 instance_state = Some (tt, cx')
       /\ crcs cx' !! 1%positive = None
       /\ deleted cx' = [1%positive]
       /\ finalize 4 cx' = Some (tt, cx').
Proof.
  split.
  - apply (proj1 (C9_finalize_releases_once proto_state 2)). vm_compute. reflexivity.
  - destruct (proj2 (C9_finalize_releases_once instance_state 4) 1%positive)
      as (cx' & Hrun & _ & Hgone & Hlog & _ & Hagain & _).
    + split; [vm_compute; reflexivity|]. vm_compute. eauto.
    + exists cx'. repeat split; assumption.
Defined.

Lemma C10_witness :
  accumulator
    (set_pending (Some (ErrorNumber JSMSG_MORE_ARGS_NEEDED ["update"])) instance_state) 1 =
    Some 0.
Proof.
  apply (C10_failed_update_is_atomic Zlib.crc32 instance_state 4 1 0
           (call_on 4 []) (call_on 4 [])
           (set_pending (Some (ErrorNumber JSMSG_MORE_ARGS_NEEDED ["update"])) instance_state)).
  - vm_compute. reflexivity.
  - vm_compute. reflexivity.
  - reflexivity.
  - vm_compute. reflexivity.
Defined.

(** ** The cheap membership test and the test program *)

Lemma mayResolve_names id maybeObj :
  mayResolve id maybeObj = true <->
  id = JSID_STRING "update" \/ id = JSID_STRING "checksum".
Proof.
  unfold mayResolve, JS_FlatStringEqualsAscii.
  destruct id as [s| | |]; cbn; try (split; [discriminate|intros [H|H]; discriminate]).
  rewrite orb_true_iff, !bool_decide_eq_true.
  split; (intros [H|H]; [left|right]; congruence).
Qed.

Example testProgram_result :
  fst <$> testProgram (initial_state 10) = Some (Some (NumberValue 0x470B99F4)).
Proof. vm_compute. reflexivity. Qed.

Example testProgram_out_of_memory :
  fst <$> testProgram (initial_state 3) = Some None.
Proof. vm_compute. reflexivity. Qed.

(** * Further properties of the class *)

(** ** [mayResolve] and [resolve] *)

Lemma resolve_skipped cx obj priv id resolved :
  private_of cx obj = Some priv ->
  mayResolve id None = false ->
  resolve obj id resolved cx = Some (true, false, cx).
Proof.
  intros Hobj Hmay. unfold resolve.
  rewrite (bind_run _ _ _ _ _ (isPrototype_run _ _ _ Hobj)).
  destruct priv as [p|]; [reflexivity|].
  rewrite bool_decide_eq_true_2 by reflexivity. cbn [negb].
  unfold mayResolve in Hmay.
  destruct id as [s| | |]; try reflexivity.
  cbn in Hmay. apply orb_false_iff in Hmay as [Hu Hc].
  cbn. unfold bind at 1. cbn. rewrite Hu, Hc. reflexivity.
Qed.

(** X1: [mayResolve] is an exact preview of [resolve].  When it answers
    [false], [resolve] on any object of the class sets [*resolved = false]
    and changes nothing.  When it answers [true], [resolve] on the
    prototype (the engine having memory for a function object) sets
    [*resolved = true] and the object then has a member under that key. *)
Theorem mayResolve_agrees_with_resolve cx obj priv id maybeObj resolved :
  private_of cx obj = Some priv ->
  (mayResolve id maybeObj = false ->
     resolve obj id resolved cx = Some (true, false, cx))
  /\ (mayResolve id maybeObj = true -> priv = None -> (0 < mem_free cx)%nat ->
      exists cx',
        resolve obj id resolved cx = Some (true, true, cx')
        /\ is_Some (member cx' obj id)).
Proof.
  intros Hobj. split.
  - intros Hmay. apply (resolve_skipped _ _ _ _ _ Hobj). exact Hmay.
  - intros Hmay -> Hm.
    destruct (private_of_heap _ _ _ Hobj) as [props Hheap].
    apply mayResolve_names in Hmay as [-> | ->].
    + eexists. split; [apply (resolve_update_run _ _ _ _ Hheap Hm)|].
      destruct (with_member_facts cx obj props (JSID_STRING "update")
                  (mkObject (FunctionObject Native_update 1 (JSID_STRING "update")) [])
                  (DataProperty (ObjectValue (fresh (dom (heap cx)))) JSPROP_ENUMERATE)
                  Hheap) as (_ & Hmem & _).
      rewrite Hmem. eauto.
    + eexists. split; [apply (resolve_checksum_run _ _ _ _ Hheap Hm)|].
      destruct (with_member_facts cx obj props (JSID_STRING "checksum")
                  (mkObject (FunctionObject Native_getChecksum 0 (JSID_STRING "checksum")) [])
                  (AccessorProperty (Some (fresh (dom (heap cx)))) None JSPROP_ENUMERATE)
                  Hheap) as (_ & Hmem & _).
      rewrite Hmem. eauto.
Qed.

(** X2: When the engine cannot allocate the function object, [resolve] of
    "update" or "checksum" on the prototype returns [false] with the
    out-of-memory report pending; it does not write [*resolved], and it
    defines nothing: heap and instance states are as before. *)
Theorem resolve_out_of_memory cx obj name resolved :
  prototype_object cx obj ->
  mem_free cx = 0%nat ->
  name = "update"%string \/ name = "checksum"%string ->
  resolve obj (JSID_STRING name) resolved cx =
    Some (false, resolved, set_pending (Some out_of_memory) cx)
  /\ heap (set_pending (Some out_of_memory) cx) = heap cx
  /\ crcs (set_pending (Some out_of_memory) cx) = crcs cx.
Proof.
  intros [props Hobj]%private_of_heap Hm Hname.
  split; [|split; reflexivity].
  unfold resolve, isPrototype, getPriv, JS_GetPrivate.
  run_monad. rewrite Hobj. run_monad.
  destruct Hname as [-> | ->].
  - change (JS_FlatStringEqualsAscii "update" "update") with true. cbn match.
    unfold JS_DefineFunctionById, new_native_function, new_object, allocate,
      JS_ReportOutOfMemory.
    run_monad. rewrite Hm. reflexivity.
  - change (JS_FlatStringEqualsAscii "checksum" "update") with false.
    change (JS_FlatStringEqualsAscii "checksum" "checksum") with true. cbn match.
    unfold JS_DefinePropertyById, new_accessor, new_native_function, new_object, allocate,
      JS_ReportOutOfMemory.
    run_monad. rewrite Hm. reflexivity.
Qed.

Lemma with_member_heap cx obj props id fn prop :
  heap cx !! obj = Some (mkObject (CrcObject None) props) ->
  heap (with_member cx obj props id fn prop) !! obj =
    Some (mkObject (CrcObject None) (put_property id prop props)).
Proof. intros _. unfold with_member. cbn. apply lookup_insert_eq. Qed.

Lemma resolve_then_run cx obj props first second fn1 prop1 fn2 prop2 :
  heap cx !! obj = Some (mkObject (CrcObject None) props) ->
  first <> second ->
  (forall r, resolve obj (JSID_STRING first) r cx =
             Some (true, true, with_member cx obj props (JSID_STRING first) fn1
                                 (prop1 (fresh (dom (heap cx)))))) ->
  (forall r cx1 props1,
      heap cx1 !! obj = Some (mkObject (CrcObject None) props1) ->
      (0 < mem_free cx1)%nat ->
      resolve obj (JSID_STRING second) r cx1 =
        Some (true, true, with_member cx1 obj props1 (JSID_STRING second) fn2
                            (prop2 (fresh (dom (heap cx1)))))) ->
  (2 <= mem_free cx)%nat ->
  exists f g cx',
    resolve_then first second obj cx = Some (true, true, cx')
    /\ member cx' obj (JSID_STRING first) = Some (prop1 f)
    /\ member cx' obj (JSID_STRING second) = Some (prop2 g)
    /\ heap cx' !! f = Some fn1
    /\ heap cx' !! g = Some fn2
    /\ f <> g
    /\ prototype_object cx' obj
    /\ crcs cx' = crcs cx.
Proof.
  intros Hobj Hne Hfirst Hsecond Hm.
  set (f := fresh (dom (heap cx))).
  set (cx1 := with_member cx obj props (JSID_STRING first) fn1 (prop1 f)).
  destruct (with_member_facts cx obj props (JSID_STRING first) fn1 (prop1 f) Hobj)
    as (Hf & Hmem1 & Hfn1 & _ & _ & _ & Hcrcs1 & _).
  fold f in Hf, Hfn1. fold cx1 in Hmem1, Hfn1, Hcrcs1.
  pose proof (with_member_heap cx obj props (JSID_STRING first) fn1 (prop1 f) Hobj) as Hobj1.
  fold cx1 in Hobj1.
  assert (Hm1 : (0 < mem_free cx1)%nat) by (unfold cx1, with_member; cbn; lia).
  set (g := fresh (dom (heap cx1))).
  destruct (with_member_facts cx1 obj _ (JSID_STRING second) fn2 (prop2 g) Hobj1)
    as (Hg & Hmem2 & Hfn2 & Hproto & Hother & Hframe & Hcrcs2 & _).
  fold g in Hg, Hfn2, Hframe.
  assert (Hfg : f <> g).
  { intros Heq. rewrite <- Heq, Hfn1 in Hg. discriminate. }
  assert (Hfo : f <> obj) by (apply fresh_heap_ne; eauto).
  exists f, g. eexists. split.
  { unfold resolve_then. rewrite (bind_run _ _ _ _ _ (Hfirst false)).
    apply (Hsecond false cx1 _ Hobj1 Hm1). }
  fold g. split; [|split; [exact Hmem2|]].
  { rewrite Hother by congruence. exact Hmem1. }
  split; [rewrite Hframe by congruence; exact Hfn1|].
  split; [exact Hfn2|]. split; [exact Hfg|]. split; [exact Hproto|].
  rewrite Hcrcs2. exact Hcrcs1.
Qed.

(** X3: Resolving one name does not disturb the other: after "update" and
    "checksum" were both resolved on the prototype, in either order, the
    prototype has the function member and the getter-only accessor, each
    backed by a function object of its own, and it still is the prototype. *)
Theorem resolve_both_members cx obj :
  prototype_object cx obj ->
  (2 <= mem_free cx)%nat ->
  let fn_update := mkObject (FunctionObject Native_update 1 (JSID_STRING "update")) [] in
  let fn_checksum :=
    mkObject (FunctionObject Native_getChecksum 0 (JSID_STRING "checksum")) [] in
  forall first second,
    (first = "update"%string /\ second = "checksum"%string)
    \/ (first = "checksum"%string /\ second = "update"%string) ->
    exists f g cx',
      resolve_then first second obj cx = Some (true, true, cx')
      /\ member cx' obj (JSID_STRING "update") =
           Some (DataProperty (ObjectValue f) JSPROP_ENUMERATE)
      /\ member cx' obj (JSID_STRING "checksum") =
           Some (AccessorProperty (Some g) None JSPROP_ENUMERATE)
      /\ heap cx' !! f = Some fn_update
      /\ heap cx' !! g = Some fn_checksum
      /\ f <> g
      /\ prototype_object cx' obj
      /\ crcs cx' = crcs cx.
Proof.
  intros [props Hobj]%private_of_heap Hm fn_update fn_checksum first second Horder.
  destruct Horder as [[-> ->] | [-> ->]].
  - destruct (resolve_then_run cx obj props "update" "checksum"
                fn_update (fun f => DataProperty (ObjectValue f) JSPROP_ENUMERATE)
                fn_checksum (fun g => AccessorProperty (Some g) None JSPROP_ENUMERATE)
                Hobj)
      as (f & g & cx' & Hrun & H1 & H2 & H3 & H4 & H5 & H6 & H7).
    + discriminate.
    + intros r. apply resolve_update_run; [exact Hobj|lia].
    + intros r cx1 props1 H Hm1. apply resolve_checksum_run; assumption.
    + exact Hm.
    + exists f, g, cx'. repeat split; assumption.
  - destruct (resolve_then_run cx obj props "checksum" "update"
                fn_checksum (fun g => AccessorProperty (Some g) None JSPROP_ENUMERATE)
                fn_update (fun f => DataProperty (ObjectValue f) JSPROP_ENUMERATE)
                Hobj)
      as (g & f & cx' & Hrun & H1 & H2 & H3 & H4 & H5 & H6 & H7).
    + discriminate.
    + intros r. apply resolve_checksum_run; [exact Hobj|lia].
    + intros r cx1 props1 H Hm1. apply resolve_update_run; assumption.
    + exact Hm.
    + exists f, g, cx'. repeat split; try assumption. congruence.
Qed.

(** ** Enumeration without memory *)

(** X4: On the prototype, when the engine cannot grow the vector, the
    enumeration hook returns [false] with the out-of-memory report pending.
    With no memory at all nothing was appended; with memory for one entry
    only, "update" was appended before the failure and "checksum" was not.
    The heap and the instance states are untouched either way. *)
Theorem newEnumerate_out_of_memory cx obj properties enumerableOnly :
  prototype_object cx obj ->
  (mem_free cx < 2)%nat ->
  exists properties' cx',
    newEnumerate obj properties enumerableOnly cx = Some (false, properties', cx')
    /\ properties' =
         (if decide (mem_free cx = 0%nat) then properties
          else properties ++ [JSID_STRING "update"])
    /\ pending cx' = Some out_of_memory
    /\ heap cx' = heap cx
    /\ crcs cx' = crcs cx.
Proof.
  intros Hproto Hm. unfold newEnumerate.
  rewrite (bind_run _ _ _ _ _ (isPrototype_run _ _ _ Hproto)).
  rewrite bool_decide_eq_true_2 by reflexivity. cbn [negb].
  unfold append, allocate, JS_ReportOutOfMemory.
  destruct (mem_free cx) as [|[|n]] eqn:En; [| |lia].
  - eexists _, _. run_monad. rewrite En. run_monad.
    split; [reflexivity|]. repeat split.
  - eexists _, _. run_monad. rewrite En. run_monad.
    split; [reflexivity|]. repeat split.
Qed.

(** ** What a call on an instance leaves alone *)

(** X5: Whatever its outcome, [update] on an instance touches at most the
    accumulator of that instance: the heap (so every private slot and every
    member), the state of every other instance, the set of live states, the
    deletion log and the memory count are as before. *)
Theorem update_frame crc32 cx obj p c args :
  private_of cx obj = Some (Some p) ->
  accumulator cx p = Some c ->
  thisv args = ObjectValue obj ->
  exists ok args' cx',
    update crc32 args cx = Some (ok, args', cx')
    /\ heap cx' = heap cx
    /\ (forall q, q <> p -> crcs cx' !! q = crcs cx !! q)
    /\ dom (crcs cx') = dom (crcs cx)
    /\ deleted cx' = deleted cx
    /\ mem_free cx' = mem_free cx.
Proof.
  intros Hobj Hacc Hthis.
  rewrite (update_run _ _ _ _ _ _ Hobj Hacc Hthis). unfold update_result.
  assert (Hp : is_Some (crcs cx !! p)).
  { unfold accumulator in Hacc. destruct (crcs cx !! p); [eauto|discriminate]. }
  destruct (argv args) as [|a rest].
  { eexists _, _, _. split; [reflexivity|]. repeat split. }
  destruct (uint8_data cx a) as [data|].
  2: { eexists _, _, _. split; [reflexivity|]. repeat split. }
  destruct (Z.of_nat (length data) >? Cxx.UINT_MAX).
  { eexists _, _, _. split; [reflexivity|]. repeat split. }
  eexists _, _, _. split; [reflexivity|]. cbn.
  split; [reflexivity|]. split.
  - intros q Hq. rewrite lookup_insert_ne by congruence. reflexivity.
  - split; [|split; reflexivity].
    rewrite dom_insert_L. apply subseteq_union_1_L, singleton_subseteq_l, elem_of_dom, Hp.
Qed.

(** X6: The [checksum] getter on an instance returns the accumulator converted
    to [uint32_t]: a number in [0, 2^32), equal to the accumulator when the
    accumulator itself is in that range, and it leaves the state as it
    was, so that reading again gives the same number. *)
Theorem getChecksum_range cx obj p c args :
  private_of cx obj = Some (Some p) ->
  accumulator cx p = Some c ->
  thisv args = ObjectValue obj ->
  exists v,
    getChecksum args cx = Some (true, set_rval (NumberValue v) args, cx)
    /\ getChecksum (set_rval (NumberValue v) args) cx =
         Some (true, set_rval (NumberValue v) args, cx)
    /\ 0 <= v < 2 ^ 32
    /\ v = c mod 2 ^ 32
    /\ (0 <= c < 2 ^ 32 -> v = c).
Proof.
  intros Hobj Hacc Hthis. exists (Cxx.to_uint32_t c).
  split; [apply (getChecksum_run _ _ _ _ _ Hobj Hacc Hthis)|].
  split; [apply (getChecksum_run _ _ _ _ (set_rval _ args) Hobj Hacc Hthis)|].
  unfold Cxx.to_uint32_t. split; [apply Z.mod_pos_bound; lia|].
  split; [reflexivity|]. intros Hc. apply Z.mod_small, Hc.
Qed.

(** ** Any number of chunks *)





(** ** Construction: success, failure and independence *)

Lemma constructed_heap_other crc32 cx o :
  o <> fresh (dom (heap cx)) -> heap (constructed crc32 cx) !! o = heap cx !! o.
Proof. intros Ho. unfold constructed. cbn. apply lookup_insert_ne. congruence. Qed.

Lemma constructed_crcs_other crc32 cx q :
  q <> fresh (dom (crcs cx)) -> crcs (constructed crc32 cx) !! q = crcs cx !! q.
Proof. intros Hq. unfold constructed. cbn. apply lookup_insert_ne. congruence. Qed.

(** X8: The constructor succeeds exactly when it is called with [new] and the
    engine can allocate the object.  When it fails it has allocated
    nothing: no object and no [Crc] state is left behind, the arguments are
    as they were and an error is pending. *)
Theorem constructor_outcome crc32 cx args :
  exists ok args' cx',
    constructor crc32 args cx = Some (ok, args', cx')
    /\ (ok = true <-> constructing args = true /\ (0 < mem_free cx)%nat)
    /\ (ok = false ->
        heap cx' = heap cx /\ crcs cx' = crcs cx /\ args' = args
        /\ is_Some (pending cx')).
Proof.
  destruct (constructing args) eqn:Hc.
  - destruct (mem_free cx) as [|n] eqn:En.
    + eexists _, _, _. split; [apply (constructor_out_of_memory _ _ _ Hc En)|].
      split; [split; [discriminate|intros [_ H]; lia]|].
      intros _. repeat split; eauto.
    + eexists _, _, _. split; [apply (constructor_run _ _ _ Hc); lia|].
      split; [split; [intros _; split; [reflexivity|lia]|reflexivity]|discriminate].
  - eexists _, _, _. split.
    + unfold constructor, isConstructing. rewrite Hc. reflexivity.
    + split; [split; [discriminate|intros [H _]; discriminate]|].
      intros _. repeat split; eauto.
Qed.

(** X9: Two constructions give two instances that share nothing: the objects
    differ, their states differ, both are proper instances afterwards, and
    an [update] on the first leaves the accumulator of the second where the
    constructor put it. *)
Theorem constructions_are_independent crc32 cx args1 args2 update_args :
  constructing args1 = true ->
  constructing args2 = true ->
  (2 <= mem_free cx)%nat ->
  exists o1 p1 cx1 o2 p2 cx2,
    constructor crc32 args1 cx = Some (true, set_rval (ObjectValue o1) args1, cx1)
    /\ constructor crc32 args2 cx1 = Some (true, set_rval (ObjectValue o2) args2, cx2)
    /\ o1 <> o2 /\ p1 <> p2
    /\ instance_object cx2 o1 p1 /\ instance_object cx2 o2 p2
    /\ (thisv update_args = ObjectValue o1 ->
        exists ok args' cx3,
          update crc32 update_args cx2 = Some (ok, args', cx3)
          /\ accumulator cx3 p2 = Some (crc32 0 None 0)
          /\ private_of cx3 o2 = Some (Some p2)).
Proof.
  intros Hc1 Hc2 Hm.
  set (o1 := fresh (dom (heap cx))). set (p1 := fresh (dom (crcs cx))).
  set (cx1 := constructed crc32 cx).
  set (o2 := fresh (dom (heap cx1))). set (p2 := fresh (dom (crcs cx1))).
  set (cx2 := constructed crc32 cx1).
  assert (Ho1 : heap cx1 !! o1 = Some (mkObject (CrcObject (Some p1)) [])).
  { unfold cx1, constructed. cbn. apply lookup_insert_eq. }
  assert (Hp1 : crcs cx1 !! p1 = Some (Crc_init crc32)).
  { unfold cx1, constructed. cbn. apply lookup_insert_eq. }
  assert (Hm1 : (0 < mem_free cx1)%nat) by (unfold cx1, constructed; cbn; lia).
  assert (Hno : o1 <> o2).
  { intros Heq. pose proof (fresh_heap cx1) as Hf. fold o2 in Hf.
    rewrite <- Heq, Ho1 in Hf. discriminate. }
  assert (Hnp : p1 <> p2).
  { intros Heq. pose proof (fresh_crcs cx1) as Hf. fold p2 in Hf.
    rewrite <- Heq, Hp1 in Hf. discriminate. }
  assert (Hpriv1 : private_of cx2 o1 = Some (Some p1)).
  { unfold private_of, cx2.
    rewrite (constructed_heap_other crc32 cx1 o1) by (fold o2; congruence).
    rewrite Ho1. reflexivity. }
  assert (Hacc1 : accumulator cx2 p1 = Some (crc32 0 None 0)).
  { unfold accumulator, cx2.
    rewrite (constructed_crcs_other crc32 cx1 p1) by (fold p2; congruence).
    rewrite Hp1. reflexivity. }
  pose proof (constructed_private crc32 cx1) as Hpriv2. fold o2 p2 cx2 in Hpriv2.
  pose proof (constructed_accumulator crc32 cx1) as Hacc2. fold p2 cx2 in Hacc2.
  exists o1, p1, cx1, o2, p2, cx2.
  split; [apply constructor_run; [exact Hc1|lia]|].
  split; [apply constructor_run; [exact Hc2|exact Hm1]|].
  split; [exact Hno|]. split; [exact Hnp|].
  split; [split; [exact Hpriv1|]|].
  { unfold accumulator in Hacc1. destruct (crcs cx2 !! p1); [eauto|discriminate]. }
  split; [split; [exact Hpriv2|]|].
  { unfold accumulator in Hacc2. destruct (crcs cx2 !! p2); [eauto|discriminate]. }
  intros Hthis.
  rewrite (update_run _ _ _ _ _ _ Hpriv1 Hacc1 Hthis). unfold update_result.
  destruct (argv update_args) as [|a rest].
  { eexists _, _, _. split; [reflexivity|]. split; assumption. }
  destruct (uint8_data cx2 a) as [data|].
  2: { eexists _, _, _. split; [reflexivity|]. split; assumption. }
  destruct (Z.of_nat (length data) >? Cxx.UINT_MAX).
  { eexists _, _, _. split; [reflexivity|]. split; assumption. }
  eexists _, _, _. split; [reflexivity|]. split; [|exact Hpriv2].
  unfold accumulator in *. cbn. rewrite lookup_insert_ne by congruence. exact Hacc2.
Qed.

(** ** Finalization and the rest of the class *)

(** X10: Constructing an instance and finalizing it leaks nothing: the free
    store is back to what it was before the construction, the one state
    that was allocated is the one that was deleted, and the object is left
    without attached state. *)
Theorem construct_then_finalize crc32 cx args :
  constructing args = true ->
  (0 < mem_free cx)%nat ->
  exists obj p cx1 cx2,
    constructor crc32 args cx = Some (true, set_rval (ObjectValue obj) args, cx1)
    /\ crcs cx !! p = None
    /\ is_Some (crcs cx1 !! p)
    /\ finalize obj cx1 = Some (tt, cx2)
    /\ crcs cx2 = crcs cx
    /\ deleted cx2 = p :: deleted cx
    /\ prototype_object cx2 obj.
Proof.
  intros Hc Hm.
  set (obj := fresh (dom (heap cx))). set (p := fresh (dom (crcs cx))).
  set (cx1 := constructed crc32 cx).
  assert (Hobj : heap cx1 !! obj = Some (mkObject (CrcObject (Some p)) [])).
  { unfold cx1, constructed. cbn. apply lookup_insert_eq. }
  assert (Hp : crcs cx1 !! p = Some (Crc_init crc32)).
  { unfold cx1, constructed. cbn. apply lookup_insert_eq. }
  exists obj, p, cx1, (finalized cx1 obj [] p).
  split; [apply constructor_run; assumption|].
  split; [apply fresh_crcs|]. split; [rewrite Hp; eauto|].
  split; [apply (finalize_instance _ _ _ _ Hobj); rewrite Hp; eauto|].
  unfold finalized, cx1, constructed. cbn. fold p obj.
  split; [apply delete_insert_id, fresh_crcs|]. split; [reflexivity|].
  unfold prototype_object, private_of. cbn. rewrite lookup_insert_eq. reflexivity.
Qed.

Lemma update_on_prototype crc32 cx obj args :
  prototype_object cx obj ->
  thisv args = ObjectValue obj ->
  update crc32 args cx =
    Some (false, args,
          set_pending (Some (ErrorASCII "can't call update() on Crc.prototype")) cx).
Proof.
  intros Hproto Hthis. unfold update, computeThis. rewrite Hthis. simpl.
  unfold bind at 1. simpl. unfold bind at 1. simpl.
  rewrite (bind_run _ _ _ _ _ (checkIsInstance_prototype _ _ _ Hproto)).
  reflexivity.
Qed.

Lemma getChecksum_on_prototype cx obj args :
  prototype_object cx obj ->
  thisv args = ObjectValue obj ->
  getChecksum args cx =
    Some (false, args,
          set_pending (Some (ErrorASCII "can't read checksum on Crc.prototype")) cx).
Proof.
  intros Hproto Hthis. unfold getChecksum, computeThis. rewrite Hthis. simpl.
  unfold bind at 1. simpl. unfold bind at 1. simpl.
  rewrite (bind_run _ _ _ _ _ (checkIsInstance_prototype _ _ _ Hproto)).
  reflexivity.
Qed.

(** X11: A finalized instance is never dereferenced: once the finalizer ran,
    [update] and the [checksum] getter on that object stop at the instance
    check and report the prototype-usage error, and the free store, which
    no longer holds the state, is not touched. *)
Theorem finalized_instance_rejects_calls crc32 cx obj p :
  instance_object cx obj p ->
  exists cx',
    finalize obj cx = Some (tt, cx')
    /\ crcs cx' !! p = None
    /\ forall args, thisv args = ObjectValue obj ->
         update crc32 args cx' =
           Some (false, args,
                 set_pending (Some (ErrorASCII "can't call update() on Crc.prototype")) cx')
         /\ getChecksum args cx' =
              Some (false, args,
                    set_pending (Some (ErrorASCII "can't read checksum on Crc.prototype"))
                                cx').
Proof.
  intros [Hpriv Hlive].
  destruct (private_of_heap _ _ _ Hpriv) as [props Hobj].
  assert (Hproto : prototype_object (finalized cx obj props p) obj).
  { unfold prototype_object, private_of, finalized. cbn.
    rewrite lookup_insert_eq. reflexivity. }
  exists (finalized cx obj props p).
  split; [apply (finalize_instance _ _ _ _ Hobj Hlive)|].
  split; [unfold finalized; cbn; apply lookup_delete_eq|].
  intros args Hthis. split.
  - apply (update_on_prototype _ _ _ _ Hproto Hthis).
  - apply (getChecksum_on_prototype _ _ _ Hproto Hthis).
Qed.

(** X12: The finalizer releases the state of its own object and nothing else:
    every other live state, every other object, the members of the object
    itself, the pending exception and the memory count are as before. *)
Theorem finalize_frame cx obj p :
  instance_object cx obj p ->
  exists cx',
    finalize obj cx = Some (tt, cx')
    /\ (forall q, q <> p -> crcs cx' !! q = crcs cx !! q)
    /\ (forall o, o <> obj -> heap cx' !! o = heap cx !! o)
    /\ (forall id, member cx' obj id = member cx obj id)
    /\ pending cx' = pending cx
    /\ mem_free cx' = mem_free cx.
Proof.
  intros [Hpriv Hlive].
  destruct (private_of_heap _ _ _ Hpriv) as [props Hobj].
  exists (finalized cx obj props p).
  split; [apply (finalize_instance _ _ _ _ Hobj Hlive)|].
  unfold finalized, member. cbn.
  split; [intros q Hq; apply lookup_delete_ne; congruence|].
  split; [intros o Ho; apply lookup_insert_ne; congruence|].
  split; [|split; reflexivity].
  intros id. rewrite lookup_insert_eq, Hobj. reflexivity.
Qed.

(** ** Defining the prototype *)

Lemma new_object_run o cx n :
  mem_free cx = S n ->
  new_object o cx =
    Some (Some (fresh (dom (heap cx))),
          set_heap <[fresh (dom (heap cx)) := o]> (set_mem_free n cx)).
Proof.
  intros Hm. unfold new_object, allocate. run_monad. rewrite Hm. reflexivity.
Qed.

Lemma new_object_out_of_memory o cx :
  mem_free cx = 0%nat ->
  new_object o cx = Some (None, set_pending (Some out_of_memory) cx).
Proof.
  intros Hm. unfold new_object, allocate, JS_ReportOutOfMemory.
  run_monad. rewrite Hm. reflexivity.
Qed.

Lemma define_property_run cx obj kind props id p :
  heap cx !! obj = Some (mkObject kind props) ->
  define_property obj id p cx =
    Some (tt, set_heap <[obj := mkObject kind (put_property id p props)]> cx).
Proof.
  intros Hobj. unfold define_property. run_monad. rewrite Hobj. reflexivity.
Qed.

Lemma JS_SetPrivate_run cx obj priv props data :
  heap cx !! obj = Some (mkObject (CrcObject priv) props) ->
  JS_SetPrivate obj data cx =
    Some (tt, set_heap <[obj := mkObject (CrcObject data) props]> cx).
Proof.
  intros Hobj. unfold JS_SetPrivate. run_monad. rewrite Hobj. reflexivity.
Qed.

Lemma heap_set_heap f cx : heap (set_heap f cx) = f (heap cx).
Proof. reflexivity. Qed.

Lemma heap_set_mem_free n cx : heap (set_mem_free n cx) = heap cx.
Proof. reflexivity. Qed.

(** X13: With a current global and memory for two objects, [DefinePrototype]
    returns [true] and leaves a new object of the class whose private slot
    is null, so that the hooks and natives take it for the prototype
    ([update] on it reports the prototype-usage error); the constructor is
    a new function object calling [Crc::constructor] with arity 0, bound
    under "Crc" in the global and under "constructor" in the prototype.  No
    [Crc] state is allocated and no other object changes. *)
Theorem DefinePrototype_defines cx g gobj :
  global cx = Some g ->
  heap cx !! g = Some gobj ->
  (2 <= mem_free cx)%nat ->
  exists proto ctor cx',
    DefinePrototype cx = Some (true, cx')
    /\ heap cx !! proto = None /\ heap cx !! ctor = None /\ proto <> ctor
    /\ prototype_object cx' proto
    /\ heap cx' !! ctor =
         Some (mkObject (FunctionObject Native_constructor 0 (JSID_STRING "Crc"))
                        [(JSID_STRING "prototype",
                          DataProperty (ObjectValue proto)
                                       (Z.lor JSPROP_PERMANENT JSPROP_READONLY))])
    /\ member cx' g (JSID_STRING "Crc") = Some (DataProperty (ObjectValue ctor) 0)
    /\ member cx' proto (JSID_STRING "constructor") = Some (DataProperty (ObjectValue ctor) 0)
    /\ (forall o, o <> g -> o <> proto -> o <> ctor -> heap cx' !! o = heap cx !! o)
    /\ crcs cx' = crcs cx
    /\ (forall crc32 args, thisv args = ObjectValue proto ->
          update crc32 args cx' =
            Some (false, args,
                  set_pending (Some (ErrorASCII "can't call update() on Crc.prototype"))
                              cx')).
Proof.
  intros Hg Hgobj Hm. destruct gobj as [gkind gprops].
  destruct (mem_free cx) as [|[|n]] eqn:En; [lia|lia|].
  set (proto := fresh (dom (heap cx))).
  set (P0 := mkObject (CrcObject None) []).
  set (cx1 := set_heap <[proto := P0]> (set_mem_free (S n) cx)).
  set (ctor := fresh (dom (heap cx1))).
  set (F0 := mkObject (FunctionObject Native_constructor 0 (JSID_STRING "Crc")) []).
  set (cx2 := set_heap <[ctor := F0]> (set_mem_free n cx1)).
  set (F1 := mkObject (FunctionObject Native_constructor 0 (JSID_STRING "Crc"))
               [(JSID_STRING "prototype",
                 DataProperty (ObjectValue proto)
                              (Z.lor JSPROP_PERMANENT JSPROP_READONLY))]).
  set (cx3 := set_heap <[ctor := F1]> cx2).
  set (P1 := mkObject (CrcObject None)
               [(JSID_STRING "constructor", DataProperty (ObjectValue ctor) 0)]).
  set (cx4 := set_heap <[proto := P1]> cx3).
  set (G1 := mkObject gkind
               (put_property (JSID_STRING "Crc") (DataProperty (ObjectValue ctor) 0) gprops)).
  set (cx5 := set_heap <[g := G1]> cx4).
  set (cx6 := set_heap <[proto := P1]> cx5).
  assert (Hfp : heap cx !! proto = None) by apply fresh_heap.
  assert (Hp1 : heap cx1 !! proto = Some P0).
  { unfold cx1. rewrite heap_set_heap. apply lookup_insert_eq. }
  assert (Hgp : g <> proto) by (intros Heq; rewrite Heq, Hfp in Hgobj; discriminate).
  assert (Hg1 : heap cx1 !! g = Some (mkObject gkind gprops)).
  { unfold cx1. rewrite heap_set_heap, heap_set_mem_free, lookup_insert_ne by congruence.
    exact Hgobj. }
  assert (Hfc : heap cx1 !! ctor = None) by apply fresh_heap.
  assert (Hpc : proto <> ctor) by (intros Heq; rewrite <- Heq, Hp1 in Hfc; discriminate).
  assert (Hgc : g <> ctor) by (intros Heq; rewrite <- Heq, Hg1 in Hfc; discriminate).
  assert (Hfc0 : heap cx !! ctor = None).
  { unfold cx1 in Hfc.
    rewrite heap_set_heap, heap_set_mem_free, lookup_insert_ne in Hfc by congruence.
    exact Hfc. }
  assert (H2c : heap cx2 !! ctor = Some F0).
  { unfold cx2. rewrite heap_set_heap. apply lookup_insert_eq. }
  assert (H3 : forall o, heap cx3 !! o = if decide (o = ctor) then Some F1 else heap cx1 !! o).
  { intros o. unfold cx3, cx2. rewrite !heap_set_heap, heap_set_mem_free.
    destruct (decide (o = ctor)) as [->|Ho].
    - apply lookup_insert_eq.
    - rewrite !lookup_insert_ne by congruence. reflexivity. }
  assert (H6 : forall o,
             heap cx6 !! o =
               if decide (o = proto) then Some P1
               else if decide (o = g) then Some G1
               else heap cx3 !! o).
  { intros o. unfold cx6, cx5, cx4. rewrite !heap_set_heap.
    destruct (decide (o = proto)) as [->|Hop]; [apply lookup_insert_eq|].
    rewrite lookup_insert_ne by congruence.
    destruct (decide (o = g)) as [->|Hog]; [apply lookup_insert_eq|].
    rewrite !lookup_insert_ne by congruence. reflexivity. }
  assert (Hrun : DefinePrototype cx = Some (true, cx6)).
  { unfold DefinePrototype, CurrentGlobalOrNull.
    unfold bind at 1. unfold bind at 1. unfold get_state at 1. cbn beta iota.
    unfold ret at 1. cbn beta iota. rewrite Hg. unfold bind at 1. cbn [defined].
    unfold ret at 1. cbn beta iota.
    assert (Hinit : JS_InitClass g klass Native_constructor 0 cx = Some (Some proto, cx5)).
    { unfold JS_InitClass.
      rewrite (bind_run _ _ _ _ _ (new_object_run (object_of_class klass) cx (S n) En)).
      fold proto. cbn [object_of_class]. fold P0 cx1.
      unfold new_native_function.
      rewrite (bind_run _ _ _ _ _ (new_object_run F0 cx1 n eq_refl)).
      fold ctor cx2.
      rewrite (bind_run _ _ _ _ _
                 (define_property_run cx2 ctor _ _ (JSID_STRING "prototype")
                    (DataProperty (ObjectValue proto)
                                  (Z.lor JSPROP_PERMANENT JSPROP_READONLY)) H2c)).
      cbn [put_property]. fold F1 cx3.
      assert (H3p : heap cx3 !! proto = Some P0).
      { rewrite H3, decide_False by congruence. exact Hp1. }
      rewrite (bind_run _ _ _ _ _
                 (define_property_run cx3 proto _ _ (JSID_STRING "constructor")
                    (DataProperty (ObjectValue ctor) 0) H3p)).
      cbn [put_property]. fold P1 cx4.
      assert (H4g : heap cx4 !! g = Some (mkObject gkind gprops)).
      { unfold cx4. rewrite heap_set_heap, lookup_insert_ne by congruence.
        rewrite H3, decide_False by congruence. exact Hg1. }
      rewrite (bind_run _ _ _ _ _
                 (define_property_run cx4 g _ _ (JSID_STRING "Crc")
                    (DataProperty (ObjectValue ctor) 0) H4g)).
      reflexivity. }
    rewrite (bind_run _ _ _ _ _ Hinit).
    assert (H5p : heap cx5 !! proto = Some P1).
    { unfold cx5, cx4. rewrite !heap_set_heap, lookup_insert_ne by congruence.
      apply lookup_insert_eq. }
    rewrite (bind_run _ _ _ _ _ (JS_SetPrivate_run cx5 proto None _ None H5p)).
    reflexivity. }
  assert (Hproto : prototype_object cx6 proto).
  { unfold prototype_object, private_of. rewrite H6, decide_True by reflexivity.
    reflexivity. }
  exists proto, ctor, cx6.
  split; [exact Hrun|]. split; [exact Hfp|]. split; [exact Hfc0|].
  split; [exact Hpc|]. split; [exact Hproto|].
  split.
  { rewrite H6, !decide_False by congruence. rewrite H3, decide_True by reflexivity.
    reflexivity. }
  split.
  { unfold member. rewrite H6, decide_False, decide_True by congruence.
    unfold G1. cbn [obj_props]. apply get_put_property_eq. }
  split.
  { unfold member. rewrite H6, decide_True by reflexivity. cbn.
    rewrite decide_True by reflexivity. reflexivity. }
  split.
  { intros o Hog Hop Hoc. rewrite H6, !decide_False by congruence.
    rewrite H3, decide_False by congruence.
    unfold cx1. rewrite heap_set_heap, heap_set_mem_free, lookup_insert_ne by congruence.
    reflexivity. }
  split; [reflexivity|].
  intros crc32 args Hthis. apply (update_on_prototype _ _ _ _ Hproto Hthis).
Qed.

(** X14: Without memory for the prototype and the constructor,
    [DefinePrototype] returns [false] with the out-of-memory report
    pending; it binds nothing in the global and allocates no [Crc] state. *)
Theorem DefinePrototype_out_of_memory cx g gobj :
  global cx = Some g ->
  heap cx !! g = Some gobj ->
  (mem_free cx < 2)%nat ->
  exists cx',
    DefinePrototype cx = Some (false, cx')
    /\ pending cx' = Some out_of_memory
    /\ heap cx' !! g = Some gobj
    /\ crcs cx' = crcs cx.
Proof.
  intros Hg Hgobj Hm.
  assert (Hstart : forall (k : loc -> M bool),
             (let! current := CurrentGlobalOrNull in
              let! global := defined current in k global) cx = k g cx).
  { intros k. unfold CurrentGlobalOrNull. run_monad. rewrite Hg. reflexivity. }
  unfold DefinePrototype. rewrite Hstart.
  destruct (mem_free cx) as [|[|n]] eqn:En; [| |lia].
  - assert (Hinit : JS_InitClass g klass Native_constructor 0 cx =
                      Some (None, set_pending (Some out_of_memory) cx)).
    { unfold JS_InitClass.
      rewrite (bind_run _ _ _ _ _
                 (new_object_out_of_memory (object_of_class klass) cx En)).
      reflexivity. }
    eexists. split; [rewrite (bind_run _ _ _ _ _ Hinit); reflexivity|].
    repeat split. exact Hgobj.
  - set (proto := fresh (dom (heap cx))).
    set (cx1 := set_heap <[proto := object_of_class klass]> (set_mem_free 0 cx)).
    assert (Hgp : g <> proto).
    { intros Heq. pose proof (fresh_heap cx) as Hf. fold proto in Hf.
      rewrite <- Heq, Hgobj in Hf. discriminate. }
    assert (Hinit : JS_InitClass g klass Native_constructor 0 cx =
                      Some (None, set_pending (Some out_of_memory) cx1)).
    { unfold JS_InitClass.
      rewrite (bind_run _ _ _ _ _ (new_object_run (object_of_class klass) cx 0 En)).
      fold proto cx1. unfold new_native_function.
      rewrite (bind_run _ _ _ _ _
                 (new_object_out_of_memory
                    (mkObject (FunctionObject Native_constructor 0
                                 (JSID_STRING (class_name klass))) []) cx1 eq_refl)).
      reflexivity. }
    eexists. split; [rewrite (bind_run _ _ _ _ _ Hinit); reflexivity|].
    split; [reflexivity|]. split; [|reflexivity].
    cbn. rewrite lookup_insert_ne by congruence. exact Hgobj.
Qed.

(** ** A [this] of another class *)

(** X15: The natives read the private slot of [this] without checking its class.
    Called on an object that is not of class [Crc] (a [Uint8Array], a
    function, a plain object), [update] and the [checksum] getter report no
    error: the read of the private slot is undefined behaviour. *)
Theorem natives_do_not_check_class crc32 cx o kind props args :
  heap cx !! o = Some (mkObject kind props) ->
  foreign_kind kind = true ->
  thisv args = ObjectValue o ->
  update crc32 args cx = None /\ getChecksum args cx = None.
Proof.
  intros Hobj Hkind Hthis.
  assert (Hpriv : getPriv o cx = None).
  { unfold getPriv, JS_GetPrivate. run_monad. rewrite Hobj.
    destruct kind; try reflexivity. discriminate. }
  assert (Hcheck : forall what, checkIsInstance o what cx = None).
  { intros what. unfold checkIsInstance, isPrototype.
    unfold bind at 1. unfold bind at 1. rewrite Hpriv. reflexivity. }
  split.
  - unfold update, computeThis. rewrite Hthis. simpl.
    unfold bind at 1. simpl. unfold bind at 1. simpl.
    unfold bind at 1. rewrite Hcheck. reflexivity.
  - unfold getChecksum, computeThis. rewrite Hthis. simpl.
    unfold bind at 1. simpl. unfold bind at 1. simpl.
    unfold bind at 1. rewrite Hcheck. reflexivity.
Qed.

(** ** Concrete runs of the further properties *)

Lemma instance_state_instance : instance_object instance_state 4 1.
Proof. split; [vm_compute; reflexivity|]. vm_compute. eauto. Qed.

Lemma mayResolve_agrees_with_resolve_witness :
  resolve 4 (JSID_INT 7) true instance_state = Some (true, false, instance_state)
  /\ exists cx',
       resolve 2 (JSID_STRING "checksum") false proto_state = Some (true, true, cx')
       /\ is_Some (member cx' 2 (JSID_STRING "checksum")).
Proof.
  split.
  - apply (proj1 (mayResolve_agrees_with_resolve instance_state 4 (Some 1%positive)
                    (JSID_INT 7) None true ltac:(vm_compute; reflexivity))).
    reflexivity.
  - apply (proj2 (mayResolve_agrees_with_resolve proto_state 2 None
                    (JSID_STRING "checksum") None false ltac:(vm_compute; reflexivity))).
    + reflexivity.
    + reflexivity.
    + vm_compute. lia.
Defined.

Lemma resolve_out_of_memory_witness :
  resolve 2 (JSID_STRING "update") false (set_mem_free 0 proto_state) =
    Some (false, false, set_pending (Some out_of_memory) (set_mem_free 0 proto_state)).
Proof.
  apply (resolve_out_of_memory (set_mem_free 0 proto_state) 2 "update" false).
  - vm_compute. reflexivity.
  - reflexivity.
  - left. reflexivity.
Defined.

Lemma resolve_both_members_witness :
  exists f g cx',
    resolve_then "checksum" "update" 2 proto_state = Some (true, true, cx')
    /\ member cx' 2 (JSID_STRING "update") =
         Some (DataProperty (ObjectValue f) JSPROP_ENUMERATE)
    /\ member cx' 2 (JSID_STRING "checksum") =
         Some (AccessorProperty (Some g) None JSPROP_ENUMERATE)
    /\ f <> g.
Proof.
  destruct (resolve_both_members proto_state 2
              ltac:(vm_compute; reflexivity) ltac:(vm_compute; lia)
              "checksum"%string "update"%string
              (or_intror (conj eq_refl eq_refl)))
    as (f & g & cx' & Hrun & Hu & Hc & _ & _ & Hne & _).
  exists f, g, cx'. repeat split; assumption.
Defined.

Lemma newEnumerate_out_of_memory_witness :
  exists cx',
    newEnumerate 2 [] false (set_mem_free 1 proto_state) =
      Some (false, [JSID_STRING "update"], cx')
    /\ pending cx' = Some out_of_memory.
Proof.
  destruct (newEnumerate_out_of_memory (set_mem_free 1 proto_state) 2 [] false
              ltac:(vm_compute; reflexivity) ltac:(vm_compute; lia))
    as (properties' & cx' & Hrun & -> & Hpending & _).
  exists cx'. split; [exact Hrun|exact Hpending].
Defined.

Lemma update_frame_witness :
  exists ok args' cx',
    update Zlib.crc32 (call_on 4 [ObjectValue 5]) array_state = Some (ok, args', cx')
    /\ heap cx' = heap array_state
    /\ deleted cx' = deleted array_state.
Proof.
  destruct (update_frame Zlib.crc32 array_state 4 1 0 (call_on 4 [ObjectValue 5])
              ltac:(vm_compute; reflexivity) ltac:(vm_compute; reflexivity) eq_refl)
    as (ok & args' & cx' & Hrun & Hheap & _ & _ & Hdel & _).
  exists ok, args', cx'. repeat split; assumption.
Defined.

Lemma getChecksum_range_witness :
  exists v,
    getChecksum (call_on 4 []) instance_state =
      Some (true, set_rval (NumberValue v) (call_on 4 []), instance_state)
    /\ 0 <= v < 2 ^ 32.
Proof.
  destruct (getChecksum_range instance_state 4 1 0 (call_on 4 [])
              ltac:(vm_compute; reflexivity) ltac:(vm_compute; reflexivity) eq_refl)
    as (v & Hrun & _ & Hrange & _).
  exists v. split; [exact Hrun|exact Hrange].
Defined.


Lemma constructor_outcome_witness :
  exists ok args' cx',
    constructor Zlib.crc32 (call_on 1 []) proto_state = Some (ok, args', cx')
    /\ (ok = true <->
        constructing (call_on 1 []) = true /\ (0 < mem_free proto_state)%nat)
    /\ (ok = false ->
        heap cx' = heap proto_state /\ crcs cx' = crcs proto_state
        /\ args' = call_on 1 [] /\ is_Some (pending cx')).
Proof. exact (constructor_outcome Zlib.crc32 proto_state (call_on 1 [])). Defined.

Lemma constructions_are_independent_witness :
  exists (o1 p1 : positive) cx1 (o2 p2 : positive) cx2,
    constructor Zlib.crc32 new_call proto_state =
      Some (true, set_rval (ObjectValue o1) new_call, cx1)
    /\ constructor Zlib.crc32 new_call cx1 =
         Some (true, set_rval (ObjectValue o2) new_call, cx2)
    /\ o1 <> o2 /\ p1 <> p2.
Proof.
  destruct (constructions_are_independent Zlib.crc32 proto_state new_call new_call
              (call_on 4 []) (eq_refl true) (eq_refl true) ltac:(vm_compute; lia))
    as (o1 & p1 & cx1 & o2 & p2 & cx2 & H1 & H2 & Ho & Hp & _).
  exists o1, p1, cx1, o2, p2, cx2. repeat split; assumption.
Defined.

Lemma construct_then_finalize_witness :
  exists obj p cx1 cx2,
    constructor Zlib.crc32 new_call proto_state =
      Some (true, set_rval (ObjectValue obj) new_call, cx1)
    /\ finalize obj cx1 = Some (tt, cx2)
    /\ crcs cx2 = crcs proto_state
    /\ deleted cx2 = p :: deleted proto_state.
Proof.
  destruct (construct_then_finalize Zlib.crc32 proto_state new_call
              (eq_refl true) ltac:(vm_compute; lia))
    as (obj & p & cx1 & cx2 & Hrun & _ & _ & Hfin & Hcrcs & Hdel & _).
  exists obj, p, cx1, cx2. repeat split; assumption.
Defined.

Lemma finalized_instance_rejects_calls_witness :
  exists cx',
    finalize 4 instance_state = Some (tt, cx')
    /\ update Zlib.crc32 (call_on 4 [ObjectValue 5]) cx' =
         Some (false, call_on 4 [ObjectValue 5],
               set_pending (Some (ErrorASCII "can't call update() on Crc.prototype")) cx').
Proof.
  destruct (finalized_instance_rejects_calls Zlib.crc32 instance_state 4 1
              ltac:(split; [vm_compute; reflexivity|vm_compute; eauto]))
    as (cx' & Hfin & _ & Hcalls).
  exists cx'. split; [exact Hfin|].
  apply (proj1 (Hcalls (call_on 4 [ObjectValue 5]) eq_refl)).
Defined.

Lemma finalize_frame_witness :
  exists cx',
    finalize 4 instance_state = Some (tt, cx')
    /\ (forall o, o <> 4%positive -> heap cx' !! o = heap instance_state !! o)
    /\ pending cx' = pending instance_state.
Proof.
  destruct (finalize_frame instance_state 4 1
              ltac:(split; [vm_compute; reflexivity|vm_compute; eauto]))
    as (cx' & Hfin & _ & Hheap & _ & Hpending & _).
  exists cx'. repeat split; assumption.
Defined.

Lemma DefinePrototype_defines_witness :
  exists proto ctor cx',
    DefinePrototype (initial_state 10) = Some (true, cx')
    /\ prototype_object cx' proto
    /\ member cx' 1 (JSID_STRING "Crc") = Some (DataProperty (ObjectValue ctor) 0).
Proof.
  destruct (DefinePrototype_defines (initial_state 10) 1 (mkObject PlainObject [])
              eq_refl ltac:(vm_compute; reflexivity) ltac:(vm_compute; lia))
    as (proto & ctor & cx' & Hrun & _ & _ & _ & Hproto & _ & Hglobal & _).
  exists proto, ctor, cx'. repeat split; assumption.
Defined.

Lemma DefinePrototype_out_of_memory_witness :
  exists cx',
    DefinePrototype (initial_state 1) = Some (false, cx')
    /\ pending cx' = Some out_of_memory.
Proof.
  destruct (DefinePrototype_out_of_memory (initial_state 1) 1 (mkObject PlainObject [])
              eq_refl ltac:(vm_compute; reflexivity) ltac:(vm_compute; lia))
    as (cx' & Hrun & Hpending & _).
  exists cx'. split; [exact Hrun|exact Hpending].
Defined.

Lemma natives_do_not_check_class_witness :
  update Zlib.crc32 (call_on 5 [ObjectValue 5]) array_state = None
  /\ getChecksum (call_on 5 [ObjectValue 5]) array_state = None.
Proof.
  apply (natives_do_not_check_class Zlib.crc32 array_state 5
           (Uint8ArrayObject (bytes_of [1; 2; 3; 4; 5])) [] (call_on 5 [ObjectValue 5])).
  - vm_compute. reflexivity.
  - reflexivity.
  - reflexivity.
Defined.
